(** * Verification of [example.py]: the Symbol transaction builder

    A shallow embedding of the classes of [src/example.py]
    ([NonceGenerator], [KeyGenerator], [CatapultRESTAPI],
    [SymbolTransactionCreator]) and the proofs of the properties stated
    about them.

    Conventions.
    - A Python [int] is a [Z]; [bytes] is a [list byte]; a Python [str] is
      the list of its code points ([str], a [list Z]).
    - Methods are state-passing functions: the state holds the receiver
      ([self]) and the outside world (clock, node, output), see [M].
    - The symbolchain SDK, [requests], [json], [datetime] and [sha3] are
      libraries, not code of the program.  Their behaviour is either
      written out from its public definition (UTF-8, SHA3-256, naive
      datetime arithmetic) or taken as a parameter (the facade's hashing
      and signing, the JSON parser, the enum constants). *)

From Stdlib Require Import String Ascii.
From Stdlib Require Import Strings.Byte.
From Stdlib Require Import DecimalString.
From Stdlib Require Import ZArith Bool Lia List Eqdep_dec FinFun.
Import ListNotations.

Local Open Scope Z_scope.

(* ================================================================= *)
(** * Bytes and text *)

Module Bytes.

(** The value of a byte, and the byte of a value in [0, 256). *)
Definition Z_of_byte (b : byte) : Z := Z.of_N (Byte.to_N b).

Definition byte_of_Z (z : Z) : byte :=
  match Byte.of_N (Z.to_N (z mod 256)) with
  | Some b => b
  | None => x00
  end.

(** [int.from_bytes(bs, "little")]. *)
Fixpoint int_from_bytes_little (bs : list byte) : Z :=
  match bs with
  | [] => 0
  | b :: rest => Z_of_byte b + 256 * int_from_bytes_little rest
  end.

(** [n.to_bytes(len, "little")] for a value that fits. *)
Fixpoint int_to_bytes_little (len : nat) (n : Z) : list byte :=
  match len with
  | O => []
  | S len' => byte_of_Z n :: int_to_bytes_little len' (n / 256)
  end.

(** [bytes(n)]: [n] zero bytes. *)
Definition bytes_zero (n : nat) : list byte := repeat x00 n.

End Bytes.
Import Bytes.

Module Text.

(** A Python [str]: the sequence of its code points. *)
Definition str := list Z.

(** A string literal of the source (ASCII). *)
Definition lit (s : string) : str :=
  map (fun a => Z.of_N (N_of_ascii a)) (list_ascii_of_string s).

Definition str_eq_dec : forall a b : str, {a = b} + {a <> b} :=
  list_eq_dec Z.eq_dec.

(** [a == b] on strings. *)
Definition str_eqb (a b : str) : bool :=
  if str_eq_dec a b then true else false.

(** The code points that have a UTF-8 encoding: the Unicode scalar values.
    A Python [str] may also hold lone surrogates (U+D800..U+DFFF), which
    [str.encode] refuses. *)
Definition is_scalar_value (c : Z) : bool :=
  ((0 <=? c) && (c <? 55296)) || ((57344 <=? c) && (c <? 1114112)).

(** UTF-8 of one code point (RFC 3629). *)
Definition utf8_encode_char (c : Z) : option (list byte) :=
  if negb (is_scalar_value c) then None
  else if c <? 128 then Some [byte_of_Z c]
  else if c <? 2048 then
    Some [byte_of_Z (192 + c / 64); byte_of_Z (128 + c mod 64)]
  else if c <? 65536 then
    Some [byte_of_Z (224 + c / 4096);
          byte_of_Z (128 + (c / 64) mod 64);
          byte_of_Z (128 + c mod 64)]
  else
    Some [byte_of_Z (240 + c / 262144);
          byte_of_Z (128 + (c / 4096) mod 64);
          byte_of_Z (128 + (c / 64) mod 64);
          byte_of_Z (128 + c mod 64)].

(** [s.encode("utf8")]; [None] stands for [UnicodeEncodeError]. *)
Fixpoint utf8_encode (s : str) : option (list byte) :=
  match s with
  | [] => Some []
  | c :: rest =>
      match utf8_encode_char c, utf8_encode rest with
      | Some bs, Some bs' => Some (bs ++ bs')
      | _, _ => None
      end
  end.

Definition is_continuation (b : Z) : bool := (128 <=? b) && (b <? 192).

(** [bs.decode("utf8")], strict: overlong forms, surrogates and values
    above U+10FFFF are refused; [None] stands for [UnicodeDecodeError]. *)
Fixpoint utf8_decode (bs : list byte) : option str :=
  match bs with
  | [] => Some []
  | b0 :: r0 =>
      let z0 := Z_of_byte b0 in
      if z0 <? 128 then option_map (cons z0) (utf8_decode r0)
      else if (194 <=? z0) && (z0 <? 224) then
        match r0 with
        | b1 :: r1 =>
            let z1 := Z_of_byte b1 in
            if is_continuation z1
            then option_map (cons ((z0 - 192) * 64 + (z1 - 128))) (utf8_decode r1)
            else None
        | _ => None
        end
      else if (224 <=? z0) && (z0 <? 240) then
        match r0 with
        | b1 :: b2 :: r2 =>
            let z1 := Z_of_byte b1 in
            let z2 := Z_of_byte b2 in
            let c := (z0 - 224) * 4096 + (z1 - 128) * 64 + (z2 - 128) in
            if is_continuation z1 && is_continuation z2
               && (2048 <=? c) && is_scalar_value c
            then option_map (cons c) (utf8_decode r2)
            else None
        | _ => None
        end
      else if (240 <=? z0) && (z0 <? 245) then
        match r0 with
        | b1 :: b2 :: b3 :: r3 =>
            let z1 := Z_of_byte b1 in
            let z2 := Z_of_byte b2 in
            let z3 := Z_of_byte b3 in
            let c := (z0 - 240) * 262144 + (z1 - 128) * 4096
                     + (z2 - 128) * 64 + (z3 - 128) in
            if is_continuation z1 && is_continuation z2 && is_continuation z3
               && (65536 <=? c) && is_scalar_value c
            then option_map (cons c) (utf8_decode r3)
            else None
        | _ => None
        end
      else None
  end.

(** [s.replace(old, "")] for a one-character [old]: every occurrence goes. *)
Definition str_remove (old : Z) (s : str) : str :=
  filter (fun c => negb (c =? old)) s.

(** [str(n)] for an [int]. *)
Definition str_of_int (n : Z) : str :=
  lit (NilZero.string_of_int (Z.to_int n)).

End Text.
Import Text.

(* ================================================================= *)
(** * SHA3-256 (FIPS 202), the digest behind [sha3.sha3_256] *)

Module Sha3.

Definition mask64 : Z := 18446744073709551615.

(** Rotation of a 64-bit lane to the left. *)
Definition rotl64 (x : Z) (n : Z) : Z :=
  Z.land (Z.lor (Z.shiftl x n) (Z.shiftr x (64 - n))) mask64.

(** The state: 25 lanes, lane (x, y) at index [x + 5 * y]. *)
Definition lane (st : list Z) (x y : nat) : Z :=
  nth (x mod 5 + 5 * (y mod 5)) st 0.

Definition rotation_offsets : list Z :=
  [ 0;  1; 62; 28; 27;
   36; 44;  6; 55; 20;
    3; 10; 43; 25; 39;
   41; 45; 15; 21;  8;
   18;  2; 61; 56; 14].

Definition round_constants : list Z :=
  [0x0000000000000001; 0x0000000000008082; 0x800000000000808A;
   0x8000000080008000; 0x000000000000808B; 0x0000000080000001;
   0x8000000080008081; 0x8000000000008009; 0x000000000000008A;
   0x0000000000000088; 0x0000000080008009; 0x000000008000000A;
   0x000000008000808B; 0x800000000000008B; 0x8000000000008089;
   0x8000000000008003; 0x8000000000008002; 0x8000000000000080;
   0x000000000000800A; 0x800000008000000A; 0x8000000080008081;
   0x8000000000008080; 0x0000000080000001; 0x8000000080008008].

Definition coords : list (nat * nat) :=
  map (fun i => (i mod 5, i / 5)%nat) (seq 0 25).

Definition theta (st : list Z) : list Z :=
  let C := fun x =>
    fold_left Z.lxor (map (fun y => lane st x y) (seq 0 5)) 0 in
  let D := fun x => Z.lxor (C (x + 4)%nat) (rotl64 (C (x + 1)%nat) 1) in
  map (fun '(x, y) => Z.lxor (lane st x y) (D x)) coords.

(** rho and pi together: B[x, y] = rot (A[x + 3y, x], r[x + 3y, x]). *)
Definition rho_pi (st : list Z) : list Z :=
  map (fun '(x, y) =>
         let x' := ((x + 3 * y) mod 5)%nat in
         rotl64 (lane st x' x) (nth (x' + 5 * x) rotation_offsets 0))
      coords.

Definition chi (st : list Z) : list Z :=
  map (fun '(x, y) =>
         Z.lxor (lane st x y)
                (Z.ldiff (lane st (x + 2) y) (lane st (x + 1) y)))
      coords.

Definition iota (rc : Z) (st : list Z) : list Z :=
  match st with
  | [] => []
  | a :: rest => Z.lxor a rc :: rest
  end.

Definition keccak_round (st : list Z) (rc : Z) : list Z :=
  iota rc (chi (rho_pi (theta st))).

Definition keccak_f (st : list Z) : list Z :=
  fold_left keccak_round round_constants st.

(** The rate of SHA3-256: 1088 bits. *)
Definition rate_bytes : nat := 136.

(** Splits the padded message into blocks of [rate_bytes]; [fuel] bounds
    the number of blocks. *)
Fixpoint blocks (fuel : nat) (bs : list byte) : list (list byte) :=
  match fuel with
  | O => []
  | S fuel' =>
      match bs with
      | [] => []
      | _ => firstn rate_bytes bs :: blocks fuel' (skipn rate_bytes bs)
      end
  end.

(** The lanes of a block: 8 bytes each, little-endian. *)
Fixpoint lanes_of (n : nat) (bs : list byte) : list Z :=
  match n with
  | O => []
  | S n' => int_from_bytes_little (firstn 8 bs) :: lanes_of n' (skipn 8 bs)
  end.

Fixpoint xor_lanes (st blk : list Z) : list Z :=
  match st, blk with
  | a :: st', b :: blk' => Z.lxor a b :: xor_lanes st' blk'
  | _, [] => st
  | [], _ => []
  end.

Definition absorb (st : list Z) (blk : list byte) : list Z :=
  keccak_f (xor_lanes st (lanes_of 17 blk)).

(** Domain bits 01 and pad10*1: 0x06, zeros, 0x80 (0x86 when they meet). *)
Definition pad (msg : list byte) : list byte :=
  let q := (rate_bytes - length msg mod rate_bytes)%nat in
  if (q =? 1)%nat then msg ++ [x86]
  else msg ++ [x06] ++ repeat x00 (q - 2) ++ [x80].

(** [sha3.sha3_256(); update(msg); digest()]: 32 bytes. *)
Definition sha3_256 (msg : list byte) : list byte :=
  let padded := pad msg in
  let st := fold_left absorb (blocks (length padded) padded) (repeat 0 25) in
  flat_map (int_to_bytes_little 8) (firstn 4 st).

End Sha3.

(* ================================================================= *)
(** * Exceptions, state passing and the outside world *)

Module Py.

(** The exceptions the program can end with.  The source raises the
    built-in [Exception] at three places; they are told apart here and
    named after the error taxonomy of the specification:
    [ConfigurationError] is [Exception("Unknown network name.")],
    [NetworkQueryError] and [AnnounceError] are
    [Exception("status code is {}")] of the two REST getters and of
    [sign_and_announce_transaction].  The others are raised by built-ins. *)
Inductive exn : Type :=
| ConfigurationError (message : str)
| NetworkQueryError (message : str)
| AnnounceError (message : str)
| UnicodeEncodeError
| OverflowError
| JSONDecodeError
| KeyError (key : str)
| TypeError
| AttributeError
| ValueError.

(** A computation over a state [S] that returns an [A] or raises; the
    state reached is kept in both cases. *)
Definition M (S A : Type) : Type := S -> (exn + A) * S.

Definition ret {S A} (a : A) : M S A := fun s => (inr a, s).

Definition raise {S A} (e : exn) : M S A := fun s => (inl e, s).

Definition bind {S A B} (c : M S A) (k : A -> M S B) : M S B :=
  fun s =>
    match c s with
    | (inr a, s') => k a s'
    | (inl e, s') => (inl e, s')
    end.

Definition gets {S A} (f : S -> A) : M S A := fun s => (inr (f s), s).

Definition modify {S} (f : S -> S) : M S unit := fun s => (inr tt, f s).

(** A built-in that returns or raises, without touching the state. *)
Definition lift {S A} (r : exn + A) : M S A := fun s => (r, s).

(** [bs = s.encode("utf8")]. *)
Definition encode {S} (s : str) : M S (list byte) :=
  match utf8_encode s with
  | Some bs => ret bs
  | None => raise UnicodeEncodeError
  end.

End Py.
Import Py.

Declare Scope py_scope.
Delimit Scope py_scope with py.
Notation "x <- c ;; k" := (bind c (fun x => k))
  (at level 61, c at next level, right associativity) : py_scope.
Notation "c ;;; k" := (bind c (fun _ => k))
  (at level 61, right associativity) : py_scope.
Local Open Scope py_scope.

Module World.

Inductive HttpMethod : Type := GET | PUT.

Record HttpRequest : Type := mkRequest {
  method : HttpMethod;
  url : str;
  headers : list (str * str);
  data : list byte
}.

Record HttpResponse : Type := mkResponse {
  status_code : Z;
  text : str
}.

(** What the program does not control.
    - [clock n] is the [n]-th reading of the system clock, in microseconds
      since the POSIX epoch; [clock_reads] counts the readings made.
    - [localtime] and [mktime] are the platform's time zone: from a POSIX
      second to the second on the local calendar, and back.
    - [node history request] is the node's answer to [request] after the
      requests of [history]; [sent] is the history so far, latest first.
    - [stdout] holds the printed lines, latest first. *)
Record World : Type := mkWorld {
  clock : nat -> Z;
  clock_reads : nat;
  localtime : Z -> Z;
  mktime : Z -> Z;
  node : list HttpRequest -> HttpRequest -> HttpResponse;
  sent : list HttpRequest;
  stdout : list str
}.

Definition tick (w : World) : World :=
  mkWorld (clock w) (S (clock_reads w)) (localtime w) (mktime w)
          (node w) (sent w) (stdout w).

Definition record_request (r : HttpRequest) (w : World) : World :=
  mkWorld (clock w) (clock_reads w) (localtime w) (mktime w)
          (node w) (r :: sent w) (stdout w).

Definition record_line (l : str) (w : World) : World :=
  mkWorld (clock w) (clock_reads w) (localtime w) (mktime w)
          (node w) (sent w) (l :: stdout w).

(** One round trip to the node. *)
Definition request (r : HttpRequest) : M World HttpResponse :=
  fun w => (inr (node w (sent w) r), record_request r w).

(** [requests.get(url)]. *)
Definition requests_get (u : str) : M World HttpResponse :=
  request (mkRequest GET u [] []).

(** [requests.put(url, headers=..., data=...)]. *)
Definition requests_put (u : str) (hs : list (str * str)) (d : list byte)
  : M World HttpResponse :=
  request (mkRequest PUT u hs d).

(** [print(line)]. *)
Definition print (l : str) : M World unit := modify (record_line l).

(** The state of a method call: the receiver and the world. *)
Record Heap (O : Type) : Type := mkHeap { self : O; world : World }.
Arguments mkHeap {O} _ _.
Arguments self {O} _.
Arguments world {O} _.

Definition Method (O A : Type) : Type := M (Heap O) A.

(** Runs a computation on the world inside a method. *)
Definition io {O A} (c : M World A) : Method O A :=
  fun h => let '(r, w) := c (world h) in (r, mkHeap (self h) w).

(** Reads an attribute of [self]. *)
Definition attr {O A} (f : O -> A) : Method O A := gets (fun h => f (self h)).

End World.
Import World.

(* ================================================================= *)
(** * Naive datetimes *)

Module Datetime.

(** A naive [datetime]: the second on the local calendar, counted from
    1970-01-01 00:00:00, and the microsecond. *)
Record datetime : Type := mkDatetime { wall : Z; microsecond : Z }.

(** [datetime.min] and [datetime.max], years 1 and 9999. *)
Definition MIN_WALL : Z := -62135596800.
Definition MAX_WALL : Z := 253402300799.

(** [datetime.datetime.today()] and [datetime.datetime.now()]: one reading
    of the clock, shown on the local calendar. *)
Definition today : M World datetime :=
  fun w =>
    let t := clock w (clock_reads w) in
    (inr (mkDatetime (localtime w (t / 1000000)) (t mod 1000000)), tick w).

(** [d + datetime.timedelta(hours=h)] for an [int] [h]: the calendar fields
    move by [h] hours whatever the zone does in between; a result outside
    of years 1..9999 is an [OverflowError]. *)
Definition add_hours (d : datetime) (h : Z) : exn + datetime :=
  let w := wall d + 3600 * h in
  if (MIN_WALL <=? w) && (w <=? MAX_WALL)
  then inr (mkDatetime w (microsecond d))
  else inl OverflowError.

(** [d.timestamp()] of a naive [d].  The float is kept exactly, as its
    number of microseconds. *)
Definition timestamp (w : World) (d : datetime) : Z :=
  mktime w (wall d) * 1000000 + microsecond d.

(** [time.mktime(d.timetuple())]: the microsecond is dropped. *)
Definition mktime_timetuple (w : World) (d : datetime) : Z :=
  mktime w (wall d) * 1000000.

(** [int(x)] of a float given in microseconds: towards zero. *)
Definition int_of_float (micros : Z) : Z := Z.quot micros 1000000.

End Datetime.

(* ================================================================= *)
(** * JSON values and the built-ins applied to them *)

Module Json.

#[warnings="-register-all"]
Inductive json : Type :=
| JNull
| JBool (b : bool)
| JNumber (n : Z)
| JString (s : str)
| JArray (items : list json)
| JObject (members : list (str * json)).

Fixpoint lookup (key : str) (members : list (str * json)) : option json :=
  match members with
  | [] => None
  | (k, v) :: rest => if str_eqb k key then Some v else lookup key rest
  end.

(** [v[key]] with a string key. *)
Definition getitem (v : json) (key : str) : exn + json :=
  match v with
  | JObject members =>
      match lookup key members with
      | Some x => inr x
      | None => inl (KeyError key)
      end
  | _ => inl TypeError
  end.

(** [v.replace(old, "")] for a one-character [old]. *)
Definition replace_with_empty (v : json) (old : Z) : exn + str :=
  match v with
  | JString s => inr (str_remove old s)
  | _ => inl AttributeError
  end.

(** The ASCII white space [int] skips around a number. *)
Definition is_space (c : Z) : bool :=
  (c =? 32) || ((9 <=? c) && (c <=? 13)).

Definition digit_value (c : Z) : option Z :=
  if (48 <=? c) && (c <=? 57) then Some (c - 48)
  else if (97 <=? c) && (c <=? 122) then Some (c - 87)
  else if (65 <=? c) && (c <=? 90) then Some (c - 55)
  else None.

Definition digit_in (base c : Z) : option Z :=
  match digit_value c with
  | Some d => if d <? base then Some d else None
  | None => None
  end.

Fixpoint drop_spaces (s : str) : str :=
  match s with
  | c :: rest => if is_space c then drop_spaces rest else s
  | [] => []
  end.

(** Digits with single underscores between them; returns the value and what
    follows.  [after_digit] tells whether the previous character was a
    digit. *)
Fixpoint parse_digits (base acc : Z) (after_digit : bool) (s : str)
  : option (Z * str) :=
  match s with
  | [] => if after_digit then Some (acc, []) else None
  | c :: rest =>
      match digit_in base c with
      | Some d => parse_digits base (acc * base + d) true rest
      | None =>
          if c =? 95
          then (if after_digit then parse_digits base acc false rest else None)
          else (if after_digit then Some (acc, s) else None)
      end
  end.

Definition drop_sign (s : str) : bool * str :=
  match s with
  | c :: rest =>
      if c =? 45 then (true, rest)
      else if c =? 43 then (false, rest)
      else (false, s)
  | [] => (false, [])
  end.

(** The [0x] or [0X] of base 16, and the one underscore allowed after it. *)
Definition drop_prefix (base : Z) (s : str) : str :=
  match s with
  | z :: x :: rest =>
      if (base =? 16) && (z =? 48) && ((x =? 120) || (x =? 88))
      then match rest with
           | u :: rest' => if u =? 95 then rest' else rest
           | [] => rest
           end
      else s
  | _ => s
  end.

(** [int(s, base)] for base 10 or 16 on ASCII text; [None] stands for
    [ValueError].  (Python also reads the decimal digits and the white
    space of other scripts; they are refused here.) *)
Definition parse_int (base : Z) (s : str) : option Z :=
  let '(negative, s1) := drop_sign (drop_spaces s) in
  match parse_digits base 0 false (drop_prefix base s1) with
  | Some (v, rest) =>
      match drop_spaces rest with
      | [] => Some (if negative then - v else v)
      | _ => None
      end
  | None => None
  end.

Definition int_ (base : Z) (s : str) : exn + Z :=
  match parse_int base s with
  | Some v => inr v
  | None => inl ValueError
  end.

End Json.

(* ================================================================= *)
(** * The values of the symbolchain SDK *)

Module Sdk.

Record PublicKey : Type := mkPublicKey { public_key_bytes : list byte }.
Record PrivateKey : Type := mkPrivateKey { private_key_bytes : list byte }.
Record Signature : Type := mkSignature { signature_bytes : list byte }.
Record Address : Type := mkAddress { address_bytes : list byte }.

Record KeyPair : Type := mkKeyPair {
  private_key : PrivateKey;
  public_key : PublicKey
}.

(** A [Hash256]: 32 bytes. *)
Record Hash256 : Type := mkHash256 {
  hash_bytes : list byte;
  hash_size : Nat.eqb (length hash_bytes) 32 = true
}.

(** [Amount(v)], [BlockDuration(v)], [MosaicNonce(v)]: an integer under a
    type of its own. *)
Inductive Amount : Type := mkAmount (value : Z).
Inductive BlockDuration : Type := mkBlockDuration (value : Z).
Inductive MosaicNonce : Type := mkMosaicNonce (value : Z).

(** One entry of [mosaics]: [{"mosaic_id": ..., "amount": ...}]. *)
Record Mosaic : Type := mkMosaic { mosaic_id : Z; amount : Z }.

Inductive MosaicSupplyChangeAction : Type := DECREASE | INCREASE.

(** The members of the enum [MosaicFlags], whose values the program does
    not fix. *)
Record MosaicFlagsEnum : Type := mkMosaicFlags {
  NONE : Z;
  SUPPLY_MUTABLE : Z;
  TRANSFERABLE : Z;
  RESTRICTABLE : Z;
  REVOKABLE : Z
}.

(** What [transaction_factory.create_embedded] is given, by the ["type"]
    of the descriptor; the fields are the other keys of the dictionary. *)
Inductive EmbeddedTransaction : Type :=
| EmbeddedTransferTransaction
    (signer_public_key : PublicKey)
    (recipient_address : Address)
    (mosaics : list Mosaic)
    (message : list byte)
| EmbeddedMosaicMetadataTransaction
    (signer_public_key : PublicKey)
    (target_address : Address)
    (target_mosaic_id : Z)
    (scoped_metadata_key : Z)
    (value : list byte)
    (value_size_delta : Z).

(** What [transaction_factory.create] is given, likewise.  The last kind,
    a metadata transaction on its own, is the one the program imports and
    never creates. *)
Inductive Descriptor : Type :=
| TransferTransaction
    (signer_public_key : PublicKey)
    (deadline : Z)
    (fee : Amount)
    (recipient_address : Address)
    (mosaics : list Mosaic)
    (message : list byte)
| AggregateCompleteTransaction
    (signer_public_key : PublicKey)
    (fee : Amount)
    (deadline : Z)
    (transactions_hash : Hash256)
    (transactions : list EmbeddedTransaction)
| MosaicDefinitionTransaction
    (signer_public_key : PublicKey)
    (deadline : Z)
    (fee : Amount)
    (duration : BlockDuration)
    (nonce : MosaicNonce)
    (flags : Z)
    (divisibility : Z)
| MosaicSupplyChangeTransaction
    (signer_public_key : PublicKey)
    (deadline : Z)
    (fee : Amount)
    (mosaic_id : Z)
    (delta : Amount)
    (action : MosaicSupplyChangeAction)
| MosaicMetadataTransaction
    (signer_public_key : PublicKey)
    (deadline : Z)
    (fee : Amount)
    (target_address : Address)
    (target_mosaic_id : Z)
    (scoped_metadata_key : Z)
    (value : list byte)
    (value_size_delta : Z).

(** A transaction object: the fields it was created from and the slot of
    its signature, empty until one is attached. *)
Record Transaction : Type := mkTransaction {
  signature : option Signature;
  body : Descriptor
}.

(** [transaction_factory.create(descriptor)] and
    [transaction_factory.create_embedded(descriptor)]: the factory is a
    black box of the SDK; a transaction is identified with the fields it
    was made from. *)
Definition create (d : Descriptor) : Transaction := mkTransaction None d.

Definition create_embedded (d : EmbeddedTransaction) : EmbeddedTransaction := d.

Definition deadline_of (d : Descriptor) : Z :=
  match d with
  | TransferTransaction _ dl _ _ _ _ => dl
  | AggregateCompleteTransaction _ _ dl _ _ => dl
  | MosaicDefinitionTransaction _ dl _ _ _ _ _ => dl
  | MosaicSupplyChangeTransaction _ dl _ _ _ _ => dl
  | MosaicMetadataTransaction _ dl _ _ _ _ _ _ => dl
  end.

Definition fee_of (d : Descriptor) : Amount :=
  match d with
  | TransferTransaction _ _ f _ _ _ => f
  | AggregateCompleteTransaction _ f _ _ _ => f
  | MosaicDefinitionTransaction _ _ f _ _ _ _ => f
  | MosaicSupplyChangeTransaction _ _ f _ _ _ => f
  | MosaicMetadataTransaction _ _ f _ _ _ _ _ => f
  end.

(** The operations of a [SymbolFacade] the program calls.  They belong to
    the SDK and are left open.  [attach_signature] returns the transaction
    as it leaves it (the signature is stored in the object it is given)
    and the JSON payload. *)
Record SymbolFacade : Type := mkFacade {
  hash_embedded_transactions : list EmbeddedTransaction -> Hash256;
  sign_transaction : KeyPair -> Transaction -> Signature;
  attach_signature : Transaction -> Signature -> Transaction * str;
  hash_transaction : Transaction -> Hash256
}.

Definition hex_digit (n : Z) : Z := if n <? 10 then 48 + n else 55 + n.

(** [str(h)] of a [Hash256]: its bytes in upper-case hexadecimal. *)
Definition Hash256_str (h : Hash256) : str :=
  flat_map (fun b => [hex_digit (Z_of_byte b / 16);
                      hex_digit (Z_of_byte b mod 16)])
           (hash_bytes h).

End Sdk.

Import Datetime Json Sdk Sha3.

(* ================================================================= *)
(** * The program: [example.py] *)

Module CatapultRESTAPI.
Record t : Type := mk { _node_url : str }.
End CatapultRESTAPI.

Module SymbolTransactionCreator.
Record t : Type := mk {
  _facade : SymbolFacade;
  _node_url : str;
  _epoch_adjustment : Z;
  _max_fee : Amount;
  _expiration_hour : Z;
  _explorer_url : str
}.
End SymbolTransactionCreator.
Import SymbolTransactionCreator.

Abbreviation Creator := SymbolTransactionCreator.t.

(** ** class KeyGenerator *)

(** [KeyGenerator.generate_uint64_key(input)]. *)
Definition generate_uint64_key (input : str) : exn + Z :=
  match utf8_encode input with
  | None => inl UnicodeEncodeError
  | Some encoded =>
      let digest := sha3_256 encoded in
      let result := int_from_bytes_little (firstn 8 digest) in
      inr result
  end.

(** ** class NonceGenerator *)

(** [NonceGenerator.generate()]. *)
Definition NonceGenerator_generate : M World Z :=
  now <- today ;;
  seconds <- gets (fun w => mktime_timetuple w now) ;;
  ret (int_of_float seconds).

Section Program.

(** The enum [MosaicFlags] of the SDK. *)
Variable MosaicFlags : MosaicFlagsEnum.

(** [SymbolFacade(network_name)], the constructor of the SDK. *)
Variable SymbolFacade_new : str -> SymbolFacade.

(** [json.loads(text)]; [None] stands for [JSONDecodeError]. *)
Variable json_loads : str -> option json.

Definition loads (t : str) : exn + json :=
  match json_loads t with
  | Some v => inr v
  | None => inl JSONDecodeError
  end.

(** ** class CatapultRESTAPI *)

Definition CatapultRESTAPI__init__ (node_url : str) : CatapultRESTAPI.t :=
  CatapultRESTAPI.mk node_url.

Definition status_message (code : Z) : str :=
  lit "status code is " ++ str_of_int code.

Definition get_epoch_adjustment : Method CatapultRESTAPI.t Z :=
  node_url <- attr CatapultRESTAPI._node_url ;;
  let url := node_url ++ lit "/network/properties" in
  response <- io (requests_get url) ;;
  if negb (status_code response =? 200)
  then raise (NetworkQueryError (status_message (status_code response)))
  else
    contents <- lift (loads (text response)) ;;
    network <- lift (getitem contents (lit "network")) ;;
    field <- lift (getitem network (lit "epochAdjustment")) ;;
    digits <- lift (replace_with_empty field 115) ;;
    epoch_adjustment <- lift (int_ 10 digits) ;;
    ret epoch_adjustment.

Definition get_currency_mosaic_id : Method CatapultRESTAPI.t Z :=
  node_url <- attr CatapultRESTAPI._node_url ;;
  let url := node_url ++ lit "/network/properties" in
  response <- io (requests_get url) ;;
  if negb (status_code response =? 200)
  then raise (NetworkQueryError (status_message (status_code response)))
  else
    contents <- lift (loads (text response)) ;;
    chain <- lift (getitem contents (lit "chain")) ;;
    field <- lift (getitem chain (lit "currencyMosaicId")) ;;
    digits <- lift (replace_with_empty field 39) ;;
    currency_mosaic_id <- lift (int_ 16 digits) ;;
    ret currency_mosaic_id.

(** ** class SymbolTransactionCreator *)

Definition __init__ (network_name node_url : str)
    (epoch_adjustment max_fee expiration_hour : Z) : M World Creator :=
  let facade := SymbolFacade_new network_name in
  let fee := mkAmount max_fee in
  if str_eqb network_name (lit "mainnet") then
    ret (mk facade node_url epoch_adjustment fee expiration_hour
            (lit "https://symbol.fyi/transactions/"))
  else if str_eqb network_name (lit "testnet") then
    ret (mk facade node_url epoch_adjustment fee expiration_hour
            (lit "https://testnet.symbol.fyi/transactions/"))
  else raise (ConfigurationError (lit "Unknown network name.")).

Definition _get_deadline : Method Creator Z :=
  now <- io today ;;
  expiration_hour <- attr _expiration_hour ;;
  later <- lift (add_hours now expiration_hour) ;;
  seconds <- io (gets (fun w => timestamp w later)) ;;
  epoch_adjustment <- attr _epoch_adjustment ;;
  let deadline := (int_of_float seconds - epoch_adjustment) * 1000 in
  ret deadline.

Definition create_transfer_transaction
    (signer_public_key : PublicKey) (recipient_address : Address)
    (mosaics : list Mosaic) (message : str) : Method Creator Transaction :=
  deadline <- _get_deadline ;;
  fee <- attr _max_fee ;;
  encoded <- encode message ;;
  let tx := create (TransferTransaction signer_public_key deadline fee
                      recipient_address mosaics (bytes_zero 1 ++ encoded)) in
  ret tx.

(** The loop of [create_aggregate_transfer_transaction]: one embedded
    transfer per message, appended to [inner_txs]. *)
Fixpoint inner_transfers {S} (signer_public_key : PublicKey)
    (recipient_address : Address) (mosaics : list Mosaic)
    (messages : list str) (inner_txs : list EmbeddedTransaction)
  : M S (list EmbeddedTransaction) :=
  match messages with
  | [] => ret inner_txs
  | message :: rest =>
      encoded <- encode message ;;
      let inner_tx :=
        create_embedded (EmbeddedTransferTransaction signer_public_key
                           recipient_address mosaics (bytes_zero 1 ++ encoded)) in
      inner_transfers signer_public_key recipient_address mosaics rest
                      (inner_txs ++ [inner_tx])
  end.

Definition create_aggregate_transfer_transaction
    (signer_public_key : PublicKey) (recipient_address : Address)
    (mosaics : list Mosaic) (messages : list str)
  : Method Creator Transaction :=
  deadline <- _get_deadline ;;
  inner_txs <- inner_transfers signer_public_key recipient_address mosaics
                               messages [] ;;
  fee <- attr _max_fee ;;
  facade <- attr _facade ;;
  let aggre_tx :=
    create (AggregateCompleteTransaction signer_public_key fee deadline
              (hash_embedded_transactions facade inner_txs) inner_txs) in
  ret aggre_tx.

(** The four conditional or-assignments of
    [create_mosaic_definition_transaction]. *)
Definition mosaic_flags (transferable supply_mutable restrictable revokable : bool)
  : Z :=
  let flags := NONE MosaicFlags in
  let flags := if transferable
               then Z.lor flags (TRANSFERABLE MosaicFlags) else flags in
  let flags := if supply_mutable
               then Z.lor flags (SUPPLY_MUTABLE MosaicFlags) else flags in
  let flags := if restrictable
               then Z.lor flags (RESTRICTABLE MosaicFlags) else flags in
  let flags := if revokable
               then Z.lor flags (REVOKABLE MosaicFlags) else flags in
  flags.

Definition create_mosaic_definition_transaction
    (signer_public_key : PublicKey) (divisibility duration : Z)
    (transferable supply_mutable restrictable revokable : bool)
  : Method Creator Transaction :=
  deadline <- _get_deadline ;;
  let flags :=
    mosaic_flags transferable supply_mutable restrictable revokable in
  fee <- attr _max_fee ;;
  nonce <- io NonceGenerator_generate ;;
  let tx := create (MosaicDefinitionTransaction signer_public_key deadline fee
                      (mkBlockDuration duration) (mkMosaicNonce nonce)
                      flags divisibility) in
  ret tx.

Definition create_mosaic_supply_change_transaction
    (signer_public_key : PublicKey) (mosaic_id supply_units : Z)
  : Method Creator Transaction :=
  deadline <- _get_deadline ;;
  fee <- attr _max_fee ;;
  let tx := create (MosaicSupplyChangeTransaction signer_public_key deadline
                      fee mosaic_id (mkAmount supply_units) INCREASE) in
  ret tx.

Definition create_mosaic_metadata_transaction
    (signer_public_key : PublicKey) (target_address : Address)
    (target_mosaic_id : Z) (scoped_metadata_key value : str)
  : Method Creator Transaction :=
  deadline <- _get_deadline ;;
  key <- lift (generate_uint64_key scoped_metadata_key) ;;
  encoded <- encode value ;;
  measured <- encode value ;;
  let tx :=
    create_embedded (EmbeddedMosaicMetadataTransaction signer_public_key
                       target_address target_mosaic_id key
                       (bytes_zero 1 ++ encoded)
                       (Z.of_nat (length (bytes_zero 1 ++ measured)))) in
  fee <- attr _max_fee ;;
  facade <- attr _facade ;;
  let aggre_tx :=
    create (AggregateCompleteTransaction signer_public_key fee deadline
              (hash_embedded_transactions facade [tx]) [tx]) in
  ret aggre_tx.

Definition sign_and_announce_transaction
    (transaction : Transaction) (key_pair : KeyPair) : Method Creator str :=
  facade <- attr _facade ;;
  let signature := sign_transaction facade key_pair transaction in
  node_url <- attr _node_url ;;
  let url := node_url ++ lit "/transactions" in
  let http_headers := [(lit "Content-type", lit "application/json")] in
  let '(transaction, json_payload) :=
    attach_signature facade transaction signature in
  payload <- encode json_payload ;;
  let tx_hash := hash_transaction facade transaction in
  response <- io (requests_put url http_headers payload) ;;
  if negb (status_code response =? 202)
  then raise (AnnounceError (status_message (status_code response)))
  else
    io (print (lit "tx hash:" ++ Hash256_str tx_hash)) ;;;
    io (print (lit "status code:" ++ str_of_int (status_code response))) ;;;
    explorer_url <- attr _explorer_url ;;
    io (print (explorer_url ++ Hash256_str tx_hash)) ;;;
    ret (Hash256_str tx_hash).

(** ** Sequences of calls on one builder *)

Inductive Call : Type :=
| Call_transfer (signer : PublicKey) (recipient : Address)
    (mosaics : list Mosaic) (message : str)
| Call_aggregate_transfer (signer : PublicKey) (recipient : Address)
    (mosaics : list Mosaic) (messages : list str)
| Call_mosaic_definition (signer : PublicKey) (divisibility duration : Z)
    (transferable supply_mutable restrictable revokable : bool)
| Call_mosaic_supply_change (signer : PublicKey) (mosaic_id supply_units : Z)
| Call_mosaic_metadata (signer : PublicKey) (target_address : Address)
    (target_mosaic_id : Z) (scoped_metadata_key value : str)
| Call_sign_and_announce (transaction : Transaction) (key_pair : KeyPair).

Inductive Outcome : Type :=
| Built (tx : Transaction)
| Announced (tx_hash : str)
| Raised (e : exn).

Definition outcome {A} (wrap : A -> Outcome) (r : exn + A) : Outcome :=
  match r with
  | inr a => wrap a
  | inl e => Raised e
  end.

Definition perform (c : Call) (h : Heap Creator) : Outcome * Heap Creator :=
  match c with
  | Call_transfer s r ms m =>
      let '(res, h') := create_transfer_transaction s r ms m h in
      (outcome Built res, h')
  | Call_aggregate_transfer s r ms msgs =>
      let '(res, h') := create_aggregate_transfer_transaction s r ms msgs h in
      (outcome Built res, h')
  | Call_mosaic_definition s dv du t sm rs rv =>
      let '(res, h') :=
        create_mosaic_definition_transaction s dv du t sm rs rv h in
      (outcome Built res, h')
  | Call_mosaic_supply_change s id units =>
      let '(res, h') := create_mosaic_supply_change_transaction s id units h in
      (outcome Built res, h')
  | Call_mosaic_metadata s a id k v =>
      let '(res, h') := create_mosaic_metadata_transaction s a id k v h in
      (outcome Built res, h')
  | Call_sign_and_announce tx kp =>
      let '(res, h') := sign_and_announce_transaction tx kp h in
      (outcome Announced res, h')
  end.

(** The calls of a caller who goes on after an exception. *)
Fixpoint perform_all (cs : list Call) (h : Heap Creator)
  : list Outcome * Heap Creator :=
  match cs with
  | [] => ([], h)
  | c :: rest =>
      let '(o, h') := perform c h in
      let '(os, h'') := perform_all rest h' in
      (o :: os, h'')
  end.

End Program.

(* ================================================================= *)
(** * What the properties are stated with *)

(** The [n]-th reading of the clock as [datetime.today()] shows it. *)
Definition reading (w : World) (n : nat) : datetime :=
  mkDatetime (localtime w (clock w n / 1000000)) (clock w n mod 1000000).

(** The deadline a builder [c] computes from the [n]-th reading. *)
Definition deadline_at (c : Creator) (w : World) (n : nat) : exn + Z :=
  match add_hours (reading w n) (_expiration_hour c) with
  | inr later =>
      inr ((int_of_float (timestamp w later) - _epoch_adjustment c) * 1000)
  | inl e => inl e
  end.

(** The formula of the specification, with [now] in microseconds:
    [(now_seconds + expiration_hours * 3600 - epoch_adjustment) * 1000]. *)
Definition spec_deadline (now expiration_hours epoch_adjustment : Z) : Z :=
  (now / 1000000 + expiration_hours * 3600 - epoch_adjustment) * 1000.

(** The conditions under which the formula is the deadline computed from
    the [n]-th reading: the clock is past the POSIX epoch, the calendar date
    reached lies in the years 1 to 9999, and the zone maps that date back
    to the same distance from now (its offset is the same at both ends). *)
Definition plain_window (c : Creator) (w : World) (n : nat) : Prop :=
  let seconds := clock w n / 1000000 in
  let wall := localtime w seconds + 3600 * _expiration_hour c in
  0 <= clock w n
  /\ MIN_WALL <= wall <= MAX_WALL
  /\ mktime w wall = seconds + 3600 * _expiration_hour c.

(** The deadline of a transaction an outcome holds. *)
Definition built_deadline (o : Outcome) : option Z :=
  match o with
  | Built tx => Some (deadline_of (body tx))
  | _ => None
  end.

(** The state after one reading of the clock. *)
Definition ticked {O} (h : Heap O) : Heap O :=
  mkHeap (self h) (tick (world h)).

(** The state after one request. *)
Definition requested {O} (r : HttpRequest) (h : Heap O) : Heap O :=
  mkHeap (self h) (record_request r (world h)).

Definition message_of (d : Descriptor) : option (list byte) :=
  match d with
  | TransferTransaction _ _ _ _ _ m => Some m
  | _ => None
  end.

Definition transactions_of (d : Descriptor) : option (list EmbeddedTransaction) :=
  match d with
  | AggregateCompleteTransaction _ _ _ _ txs => Some txs
  | _ => None
  end.

Definition transactions_hash_of (d : Descriptor) : option Hash256 :=
  match d with
  | AggregateCompleteTransaction _ _ _ th _ => Some th
  | _ => None
  end.

(** The number read from [contents[section][key]] of a JSON text: the
    string found, without the character [old], read in [base]. *)
Definition property_of (json_loads : str -> option json) (content : str)
    (section key : str) (old base : Z) : exn + Z :=
  match json_loads content with
  | None => inl JSONDecodeError
  | Some contents =>
      match getitem contents section with
      | inl e => inl e
      | inr inner =>
          match getitem inner key with
          | inl e => inl e
          | inr field =>
              match replace_with_empty field old with
              | inl e => inl e
              | inr digits => int_ base digits
              end
          end
      end
  end.

(** The request of the two getters of [CatapultRESTAPI]. *)
Definition properties_request (api : CatapultRESTAPI.t) : HttpRequest :=
  mkRequest GET (CatapultRESTAPI._node_url api ++ lit "/network/properties")
            [] [].

(** A metadata transaction outside of an aggregate. *)
Definition is_bare_metadata (d : Descriptor) : bool :=
  match d with
  | MosaicMetadataTransaction _ _ _ _ _ _ _ _ => true
  | _ => false
  end.

(** The platform of a world: its clock and its zone. *)
Definition same_platform (w w' : World) : Prop :=
  clock w' = clock w /\ localtime w' = localtime w /\ mktime w' = mktime w.

(** [messages] encoded one by one; [None] when one has no encoding. *)
Fixpoint encode_all (messages : list str) : option (list (list byte)) :=
  match messages with
  | [] => Some []
  | m :: rest =>
      match utf8_encode m, encode_all rest with
      | Some bs, Some bss => Some (bs :: bss)
      | _, _ => None
      end
  end.

(** The embedded transfer that carries the encoded text [bs]. *)
Definition embedded_transfer (signer : PublicKey) (recipient : Address)
    (mosaics : list Mosaic) (bs : list byte) : EmbeddedTransaction :=
  EmbeddedTransferTransaction signer recipient mosaics (x00 :: bs).

(** The bitwise-or of the flags whose booleans are true. *)
Definition selected_flags (fl : MosaicFlagsEnum)
    (transferable supply_mutable restrictable revokable : bool) : Z :=
  fold_right Z.lor 0
    (map snd (filter fst [(transferable, TRANSFERABLE fl);
                          (supply_mutable, SUPPLY_MUTABLE fl);
                          (restrictable, RESTRICTABLE fl);
                          (revokable, REVOKABLE fl)])).

(** Flag constants as an enum of flags has them: [NONE] is empty and no
    two members share a bit. *)
Definition independent_flags (fl : MosaicFlagsEnum) : Prop :=
  NONE fl = 0
  /\ Z.land (TRANSFERABLE fl) (SUPPLY_MUTABLE fl) = 0
  /\ Z.land (TRANSFERABLE fl) (RESTRICTABLE fl) = 0
  /\ Z.land (TRANSFERABLE fl) (REVOKABLE fl) = 0
  /\ Z.land (SUPPLY_MUTABLE fl) (RESTRICTABLE fl) = 0
  /\ Z.land (SUPPLY_MUTABLE fl) (REVOKABLE fl) = 0
  /\ Z.land (RESTRICTABLE fl) (REVOKABLE fl) = 0.

(** A call that builds a transaction. *)
Definition is_create (c : Call) : bool :=
  match c with
  | Call_sign_and_announce _ _ => false
  | _ => true
  end.

(** The texts a call has to encode. *)
Definition texts_of (c : Call) : list str :=
  match c with
  | Call_transfer _ _ _ message => [message]
  | Call_aggregate_transfer _ _ _ messages => messages
  | Call_mosaic_metadata _ _ _ key value => [key; value]
  | _ => []
  end.

(** All the texts of a call are made of Unicode scalar values. *)
Definition encodable (c : Call) : bool :=
  forallb (forallb is_scalar_value) (texts_of c).

(** Every byte, and every sequence of [n] bytes. *)
Definition all_bytes : list byte :=
  map (fun i => byte_of_Z (Z.of_nat i)) (seq 0 256).

Fixpoint byte_lists (n : nat) : list (list byte) :=
  match n with
  | O => [[]]
  | S n' => flat_map (fun b => map (cons b) (byte_lists n')) all_bytes
  end.

(** Values to run the program on. *)
Module Sample.

(** The values the SDK gives the members of [MosaicFlags]. *)
Definition flags : MosaicFlagsEnum := mkMosaicFlags 0 1 2 4 8.

(** A stand-in for the facade: the hash of a sequence holds its length. *)
Definition facade : SymbolFacade :=
  mkFacade
    (fun txs => mkHash256 (byte_of_Z (Z.of_nat (length txs)) :: repeat x00 31)
                          eq_refl)
    (fun _ _ => mkSignature (repeat x01 64))
    (fun tx sig => (mkTransaction (Some sig) (body tx), lit "{}"))
    (fun tx => mkHash256 (repeat x02 32) eq_refl).

(** A node that answers every request with [status] and [content]; a clock
    read every half second from 2023-11-14 22:13:20.1 UTC, in the zone
    UTC. *)
Definition world (status : Z) (content : str) : World :=
  mkWorld (fun n => 1700000000100000 + 500000 * Z.of_nat n) 0
          (fun t => t) (fun t => t)
          (fun _ _ => mkResponse status content) [] [].

Definition properties : json :=
  JObject
    [(lit "network",
      JObject [(lit "epochAdjustment", JString (lit "1637848847s"))]);
     (lit "chain",
      JObject [(lit "currencyMosaicId",
                JString (lit "0x3A84'16DB'2D53'B6C8"))])].

Definition json_loads (t : str) : option json :=
  if str_eqb t (lit "properties") then Some properties else None.

Definition node_url : str := lit "https://node3.xym-harvesting.com:3001".

Definition api : CatapultRESTAPI.t := CatapultRESTAPI.mk node_url.

Definition creator : Creator :=
  mk facade node_url 1637848847 (mkAmount 2000000) 2
     (lit "https://testnet.symbol.fyi/transactions/").

(** A zone that moves its clocks forward by an hour at the POSIX second
    1700003600: before it a local second is the POSIX second, after it one
    hour more. *)
Definition shifting_localtime (t : Z) : Z :=
  if t <? 1700003600 then t else t + 3600.

Definition shifting_mktime (wall : Z) : Z :=
  if wall <? 1700003600 then wall else wall - 3600.

Definition shifting_world : World :=
  mkWorld (fun n => 1700000000100000 + 500000 * Z.of_nat n) 0
          shifting_localtime shifting_mktime
          (fun _ _ => mkResponse 202 []) [] [].

Definition signer : PublicKey := mkPublicKey (repeat x03 32).
Definition recipient : Address := mkAddress (repeat x04 24).
Definition key_pair : KeyPair := mkKeyPair (mkPrivateKey (repeat x05 32)) signer.
Definition mosaics : list Mosaic := [mkMosaic 0x3A8416DB2D53B6C8 18000000].

Definition heap (status : Z) : Heap Creator :=
  mkHeap creator (world status (lit "properties")).

Definition supply_change : Call :=
  Call_mosaic_supply_change signer 0x251208ED3D0ABC84 1000.

(** A world in which a builder [c] can compute a deadline whatever its
    expiration is. *)
Definition world_for (c : Creator) : World :=
  mkWorld (fun _ => 0) 0 (fun _ => - (3600 * _expiration_hour c)) (fun _ => 0)
          (fun _ _ => mkResponse 202 []) [] [].

(** The message made of [i] letters a. *)
Definition letters (i : nat) : str := repeat 97 i.

End Sample.

(* ================================================================= *)
(** * Bytes and UTF-8 *)

Lemma Z_of_byte_range (b : byte) : 0 <= Z_of_byte b < 256.
Proof.
  unfold Z_of_byte. pose proof (Byte.to_N_bounded b). lia.
Qed.

Lemma Z_of_byte_of_Z (z : Z) : 0 <= z < 256 -> Z_of_byte (byte_of_Z z) = z.
Proof.
  intros Hz. unfold Z_of_byte, byte_of_Z.
  rewrite Z.mod_small by exact Hz.
  destruct (Byte.of_N (Z.to_N z)) as [b|] eqn:E.
  - apply Byte.to_of_N in E. lia.
  - apply Byte.of_N_None_iff in E. lia.
Qed.

Lemma byte_of_Z_of_byte (b : byte) : byte_of_Z (Z_of_byte b) = b.
Proof.
  unfold byte_of_Z.
  rewrite Z.mod_small by apply Z_of_byte_range.
  unfold Z_of_byte. rewrite N2Z.id, Byte.of_to_N. reflexivity.
Qed.

(** Settles the comparisons of a goal by arithmetic. *)
Ltac decide_tests :=
  repeat match goal with
         | |- context [?a <? ?b] =>
             destruct (Z.ltb_spec a b);
             try (exfalso; Z.div_mod_to_equations; lia)
         | |- context [?a <=? ?b] =>
             destruct (Z.leb_spec a b);
             try (exfalso; Z.div_mod_to_equations; lia)
         end;
  cbn [andb orb negb].

Lemma is_scalar_value_range (c : Z) :
  is_scalar_value c = true <->
  (0 <= c < 55296 \/ 57344 <= c < 1114112).
Proof.
  unfold is_scalar_value.
  rewrite orb_true_iff, !andb_true_iff, !Z.leb_le, !Z.ltb_lt. reflexivity.
Qed.

Lemma utf8_decode_cons (b0 : byte) (r0 : list byte) :
  utf8_decode (b0 :: r0) =
  let z0 := Z_of_byte b0 in
  if z0 <? 128 then option_map (cons z0) (utf8_decode r0)
  else if (194 <=? z0) && (z0 <? 224) then
    match r0 with
    | b1 :: r1 =>
        let z1 := Z_of_byte b1 in
        if is_continuation z1
        then option_map (cons ((z0 - 192) * 64 + (z1 - 128))) (utf8_decode r1)
        else None
    | _ => None
    end
  else if (224 <=? z0) && (z0 <? 240) then
    match r0 with
    | b1 :: b2 :: r2 =>
        let z1 := Z_of_byte b1 in
        let z2 := Z_of_byte b2 in
        let c := (z0 - 224) * 4096 + (z1 - 128) * 64 + (z2 - 128) in
        if is_continuation z1 && is_continuation z2
           && (2048 <=? c) && is_scalar_value c
        then option_map (cons c) (utf8_decode r2)
        else None
    | _ => None
    end
  else if (240 <=? z0) && (z0 <? 245) then
    match r0 with
    | b1 :: b2 :: b3 :: r3 =>
        let z1 := Z_of_byte b1 in
        let z2 := Z_of_byte b2 in
        let z3 := Z_of_byte b3 in
        let c := (z0 - 240) * 262144 + (z1 - 128) * 4096
                 + (z2 - 128) * 64 + (z3 - 128) in
        if is_continuation z1 && is_continuation z2 && is_continuation z3
           && (65536 <=? c) && is_scalar_value c
        then option_map (cons c) (utf8_decode r3)
        else None
    | _ => None
    end
  else None.
Proof. reflexivity. Qed.

Lemma utf8_decode_encode_char_cases (c : Z) (rest : list byte) :
  match utf8_encode_char c with
  | Some bs => utf8_decode (bs ++ rest) = option_map (cons c) (utf8_decode rest)
  | None => True
  end.
Proof.
  unfold utf8_encode_char.
  destruct (is_scalar_value c) eqn:Hs; [|exact I].
  apply is_scalar_value_range in Hs. cbv beta iota delta [negb].
  destruct (Z.ltb_spec c 128); [|destruct (Z.ltb_spec c 2048);
    [|destruct (Z.ltb_spec c 65536)]];
    cbv beta iota fix delta [app];
    rewrite utf8_decode_cons; cbv beta iota zeta;
    unfold is_continuation, is_scalar_value;
    rewrite !Z_of_byte_of_Z by (Z.div_mod_to_equations; lia);
    decide_tests; do 2 f_equal; Z.div_mod_to_equations; lia.
Qed.

(** Decoding reads back the code point just encoded. *)
Lemma utf8_decode_encode_char (c : Z) (bs rest : list byte) :
  utf8_encode_char c = Some bs ->
  utf8_decode (bs ++ rest) = option_map (cons c) (utf8_decode rest).
Proof.
  intros E. pose proof (utf8_decode_encode_char_cases c rest) as P.
  rewrite E in P. exact P.
Qed.

Lemma utf8_decode_encode (s : str) (bs : list byte) :
  utf8_encode s = Some bs -> utf8_decode bs = Some s.
Proof.
  revert bs. induction s as [|c s IH]; intros bs; cbn [utf8_encode].
  - intros E. injection E as <-. reflexivity.
  - destruct (utf8_encode_char c) as [b1|] eqn:Ec; [|discriminate].
    destruct (utf8_encode s) as [b2|]; [|discriminate].
    intros E. injection E as <-.
    rewrite (utf8_decode_encode_char c b1 b2 Ec), (IH b2 eq_refl).
    reflexivity.
Qed.

(** A string has an encoding exactly when it holds scalar values only. *)
Lemma utf8_encode_defined (s : str) :
  forallb is_scalar_value s = true <-> exists bs, utf8_encode s = Some bs.
Proof.
  induction s as [|c s IH]; cbn [forallb utf8_encode].
  - split; [intros _; exists []; reflexivity | reflexivity].
  - rewrite andb_true_iff, IH. unfold utf8_encode_char.
    destruct (is_scalar_value c); cbn [negb].
    + split.
      * intros [_ [bs ->]].
        destruct (c <? 128); [|destruct (c <? 2048); [|destruct (c <? 65536)]];
          eexists; reflexivity.
      * intros [bs E]. split; [reflexivity|].
        destruct (utf8_encode s) as [b2|]; [exists b2; reflexivity|].
        destruct (c <? 128); [|destruct (c <? 2048); [|destruct (c <? 65536)]];
          discriminate.
    + split; [intros [E _]; discriminate | intros [bs E]; discriminate].
Qed.

Lemma utf8_encode_injective (s t : str) (bs : list byte) :
  utf8_encode s = Some bs -> utf8_encode t = Some bs -> s = t.
Proof.
  intros Hs Ht. apply utf8_decode_encode in Hs. apply utf8_decode_encode in Ht.
  congruence.
Qed.

(* ================================================================= *)
(** * The digest and the key generator *)

Lemma int_to_bytes_little_length (n : nat) (z : Z) :
  length (int_to_bytes_little n z) = n.
Proof.
  revert z. induction n as [|n IH]; intros z; cbn [int_to_bytes_little length].
  - reflexivity.
  - now rewrite IH.
Qed.

Lemma chi_length (st : list Z) : length (chi st) = 25%nat.
Proof. unfold chi. now rewrite length_map. Qed.

Lemma iota_length (rc : Z) (st : list Z) : length (iota rc st) = length st.
Proof. now destruct st. Qed.

Lemma keccak_round_length (st : list Z) (rc : Z) :
  length (keccak_round st rc) = 25%nat.
Proof. unfold keccak_round. now rewrite iota_length, chi_length. Qed.

Lemma keccak_f_length (st : list Z) : length (keccak_f st) = 25%nat.
Proof.
  unfold keccak_f, round_constants. cbn [fold_left].
  apply keccak_round_length.
Qed.

Lemma absorb_all_length (bs : list (list byte)) (st : list Z) :
  length st = 25%nat -> length (fold_left absorb bs st) = 25%nat.
Proof.
  revert st. induction bs as [|b bs IH]; intros st Hst; cbn [fold_left].
  - exact Hst.
  - apply IH. apply keccak_f_length.
Qed.

(** The digest is 256 bits long. *)
Lemma sha3_256_length (msg : list byte) : length (sha3_256 msg) = 32%nat.
Proof.
  unfold sha3_256.
  pose proof (absorb_all_length (blocks (length (pad msg)) (pad msg))
                (repeat 0 25) eq_refl) as H.
  destruct (fold_left absorb (blocks (length (pad msg)) (pad msg)) (repeat 0 25))
    as [|a [|b [|c [|d st]]]]; try discriminate H.
  cbn [firstn flat_map]. rewrite !length_app, !int_to_bytes_little_length.
  reflexivity.
Qed.

(** C4.  [KeyGenerator.generate_uint64_key] is a function of its argument
    alone.  On a string that has a UTF-8 encoding it takes the SHA3-256
    digest of the encoding, 32 bytes, and returns the first 8 of them read
    as a little-endian unsigned 64-bit integer; a string with a lone
    surrogate has no encoding and raises [UnicodeEncodeError].  Equal
    inputs give equal keys, and the key of "header" is AD6D8491D21180E5,
    the value the source quotes from [symbol-cli converter stringToKey]. *)
Theorem generate_uint64_key_spec :
  (forall input : str,
     match utf8_encode input with
     | Some encoded =>
         exists b0 b1 b2 b3 b4 b5 b6 b7 rest,
           sha3_256 encoded = b0 :: b1 :: b2 :: b3 :: b4 :: b5 :: b6 :: b7 :: rest
           /\ length rest = 24%nat
           /\ generate_uint64_key input =
              inr (Z_of_byte b0 + 2 ^ 8 * Z_of_byte b1 + 2 ^ 16 * Z_of_byte b2
                   + 2 ^ 24 * Z_of_byte b3 + 2 ^ 32 * Z_of_byte b4
                   + 2 ^ 40 * Z_of_byte b5 + 2 ^ 48 * Z_of_byte b6
                   + 2 ^ 56 * Z_of_byte b7)
           /\ (exists key, generate_uint64_key input = inr key
                           /\ 0 <= key < 2 ^ 64)
     | None => generate_uint64_key input = inl UnicodeEncodeError
     end)
  /\ (forall a b : str, a = b -> generate_uint64_key a = generate_uint64_key b)
  /\ generate_uint64_key (lit "header") = inr 0xAD6D8491D21180E5.
Proof.
  split; [|split].
  - intros input. unfold generate_uint64_key.
    destruct (utf8_encode input) as [encoded|]; [|reflexivity].
    pose proof (sha3_256_length encoded) as H.
    destruct (sha3_256 encoded)
      as [|b0 [|b1 [|b2 [|b3 [|b4 [|b5 [|b6 [|b7 rest]]]]]]]];
      try discriminate H.
    exists b0, b1, b2, b3, b4, b5, b6, b7, rest.
    cbn [firstn int_from_bytes_little].
    pose proof (Z_of_byte_range b0). pose proof (Z_of_byte_range b1).
    pose proof (Z_of_byte_range b2). pose proof (Z_of_byte_range b3).
    pose proof (Z_of_byte_range b4). pose proof (Z_of_byte_range b5).
    pose proof (Z_of_byte_range b6). pose proof (Z_of_byte_range b7).
    repeat split.
    + cbn [length] in H. lia.
    + f_equal. lia.
    + eexists. split; [reflexivity|]. lia.
  - intros a b ->. reflexivity.
  - vm_compute. reflexivity.
Qed.

(* ================================================================= *)
(** * How each method runs *)

Lemma _get_deadline_run (h : Heap Creator) :
  _get_deadline h =
  (deadline_at (self h) (world h) (clock_reads (world h)), ticked h).
Proof.
  destruct h as [c w].
  unfold _get_deadline, deadline_at, reading, ticked, bind, io, attr, gets,
    lift, ret, today.
  cbn [self world clock clock_reads localtime mktime tick].
  destruct (add_hours _ _); reflexivity.
Qed.

Lemma inner_transfers_run {S : Type} (signer : PublicKey) (recipient : Address)
    (mosaics : list Mosaic) (messages : list str)
    (inner_txs : list EmbeddedTransaction) (st : S) :
  inner_transfers signer recipient mosaics messages inner_txs st =
  match encode_all messages with
  | Some bss =>
      (inr (inner_txs ++ map (embedded_transfer signer recipient mosaics) bss), st)
  | None => (inl UnicodeEncodeError, st)
  end.
Proof.
  revert inner_txs.
  induction messages as [|m rest IH]; intros inner_txs;
    cbn [inner_transfers encode_all].
  - unfold ret. cbn [map]. now rewrite app_nil_r.
  - unfold bind, encode.
    destruct (utf8_encode m) as [bs|]; [|reflexivity].
    unfold ret at 1. rewrite IH.
    destruct (encode_all rest) as [bss|]; [|reflexivity].
    cbn [map]. rewrite <- app_assoc. reflexivity.
Qed.

Lemma create_transfer_transaction_run (signer : PublicKey)
    (recipient : Address) (mosaics : list Mosaic) (message : str)
    (h : Heap Creator) :
  create_transfer_transaction signer recipient mosaics message h =
  match deadline_at (self h) (world h) (clock_reads (world h)) with
  | inl e => (inl e, ticked h)
  | inr deadline =>
      match utf8_encode message with
      | None => (inl UnicodeEncodeError, ticked h)
      | Some bs =>
          (inr (create (TransferTransaction signer deadline (_max_fee (self h))
                          recipient mosaics (x00 :: bs))), ticked h)
      end
  end.
Proof.
  unfold create_transfer_transaction, bind. rewrite _get_deadline_run.
  destruct (deadline_at _ _ _); [reflexivity|].
  unfold attr, gets, encode, ret. cbn [self ticked].
  destruct (utf8_encode message); reflexivity.
Qed.

Lemma create_aggregate_transfer_transaction_run (signer : PublicKey)
    (recipient : Address) (mosaics : list Mosaic) (messages : list str)
    (h : Heap Creator) :
  create_aggregate_transfer_transaction signer recipient mosaics messages h =
  match deadline_at (self h) (world h) (clock_reads (world h)) with
  | inl e => (inl e, ticked h)
  | inr deadline =>
      match encode_all messages with
      | None => (inl UnicodeEncodeError, ticked h)
      | Some bss =>
          let inner_txs := map (embedded_transfer signer recipient mosaics) bss in
          (inr (create (AggregateCompleteTransaction signer (_max_fee (self h))
                          deadline
                          (hash_embedded_transactions (_facade (self h)) inner_txs)
                          inner_txs)), ticked h)
      end
  end.
Proof.
  unfold create_aggregate_transfer_transaction, bind. rewrite _get_deadline_run.
  destruct (deadline_at _ _ _); [reflexivity|].
  rewrite inner_transfers_run.
  destruct (encode_all messages); reflexivity.
Qed.

Lemma create_mosaic_supply_change_transaction_run (signer : PublicKey)
    (mosaic_id supply_units : Z) (h : Heap Creator) :
  create_mosaic_supply_change_transaction signer mosaic_id supply_units h =
  match deadline_at (self h) (world h) (clock_reads (world h)) with
  | inl e => (inl e, ticked h)
  | inr deadline =>
      (inr (create (MosaicSupplyChangeTransaction signer deadline
                      (_max_fee (self h)) mosaic_id (mkAmount supply_units)
                      INCREASE)), ticked h)
  end.
Proof.
  unfold create_mosaic_supply_change_transaction, bind.
  rewrite _get_deadline_run.
  destruct (deadline_at _ _ _); reflexivity.
Qed.

Lemma create_mosaic_metadata_transaction_run (signer : PublicKey)
    (target_address : Address) (target_mosaic_id : Z)
    (scoped_metadata_key value : str) (h : Heap Creator) :
  create_mosaic_metadata_transaction signer target_address target_mosaic_id
    scoped_metadata_key value h =
  match deadline_at (self h) (world h) (clock_reads (world h)) with
  | inl e => (inl e, ticked h)
  | inr deadline =>
      match generate_uint64_key scoped_metadata_key with
      | inl e => (inl e, ticked h)
      | inr key =>
          match utf8_encode value with
          | None => (inl UnicodeEncodeError, ticked h)
          | Some bs =>
              let tx :=
                EmbeddedMosaicMetadataTransaction signer target_address
                  target_mosaic_id key (x00 :: bs)
                  (Z.of_nat (length (x00 :: bs))) in
              (inr (create (AggregateCompleteTransaction signer
                              (_max_fee (self h)) deadline
                              (hash_embedded_transactions (_facade (self h)) [tx])
                              [tx])), ticked h)
          end
      end
  end.
Proof.
  unfold create_mosaic_metadata_transaction, bind.
  rewrite _get_deadline_run.
  destruct (deadline_at _ _ _); [reflexivity|].
  unfold lift. destruct (generate_uint64_key scoped_metadata_key); [reflexivity|].
  unfold encode. destruct (utf8_encode value); reflexivity.
Qed.

(** The nonce read from the [n]-th reading of the clock. *)
Lemma NonceGenerator_generate_run (w : World) :
  NonceGenerator_generate w =
  (inr (int_of_float (mktime_timetuple w (reading w (clock_reads w)))), tick w).
Proof. destruct w. reflexivity. Qed.

Lemma encode_all_defined (messages : list str) :
  forallb (forallb is_scalar_value) messages = true ->
  exists bss, encode_all messages = Some bss.
Proof.
  induction messages as [|m rest IH]; cbn [forallb encode_all].
  - intros _. now exists [].
  - rewrite andb_true_iff. intros [Hm Hrest].
    apply utf8_encode_defined in Hm. destruct Hm as [bs ->].
    destruct (IH Hrest) as [bss ->]. now exists (bs :: bss).
Qed.

Section Properties.

Variable MosaicFlags : MosaicFlagsEnum.

Lemma create_mosaic_definition_transaction_run (signer : PublicKey)
    (divisibility duration : Z)
    (transferable supply_mutable restrictable revokable : bool)
    (h : Heap Creator) :
  create_mosaic_definition_transaction MosaicFlags signer divisibility duration
    transferable supply_mutable restrictable revokable h =
  match deadline_at (self h) (world h) (clock_reads (world h)) with
  | inl e => (inl e, ticked h)
  | inr deadline =>
      let w := tick (world h) in
      let nonce :=
        int_of_float (mktime_timetuple w (reading w (clock_reads w))) in
      (inr (create (MosaicDefinitionTransaction signer deadline
                      (_max_fee (self h)) (mkBlockDuration duration)
                      (mkMosaicNonce nonce)
                      (mosaic_flags MosaicFlags transferable supply_mutable
                                    restrictable revokable)
                      divisibility)), ticked (ticked h))
  end.
Proof.
  unfold create_mosaic_definition_transaction, bind.
  rewrite _get_deadline_run.
  destruct (deadline_at _ _ _); [reflexivity|].
  unfold attr, gets, io. cbn [world ticked self].
  rewrite NonceGenerator_generate_run. reflexivity.
Qed.

(** A transaction a builder call returns carries the deadline computed from
    the clock reading of the call and the fee of the builder. *)
Lemma perform_built (c : Call) (h h' : Heap Creator) (tx : Transaction) :
  is_create c = true ->
  perform MosaicFlags c h = (Built tx, h') ->
  deadline_at (self h) (world h) (clock_reads (world h))
  = inr (deadline_of (body tx))
  /\ fee_of (body tx) = _max_fee (self h).
Proof.
  intros Hc. destruct c; try discriminate Hc; cbn [perform].
  - rewrite create_transfer_transaction_run.
    destruct (deadline_at _ _ _); [discriminate|].
    destruct (utf8_encode message); [|discriminate].
    intros [= <- _]. split; reflexivity.
  - rewrite create_aggregate_transfer_transaction_run.
    destruct (deadline_at _ _ _); [discriminate|].
    destruct (encode_all messages); [|discriminate].
    intros [= <- _]. split; reflexivity.
  - rewrite create_mosaic_definition_transaction_run.
    destruct (deadline_at _ _ _); [discriminate|].
    intros [= <- _]. split; reflexivity.
  - rewrite create_mosaic_supply_change_transaction_run.
    destruct (deadline_at _ _ _); [discriminate|].
    intros [= <- _]. split; reflexivity.
  - rewrite create_mosaic_metadata_transaction_run.
    destruct (deadline_at _ _ _); [discriminate|].
    destruct (generate_uint64_key scoped_metadata_key); [discriminate|].
    destruct (utf8_encode value); [|discriminate].
    intros [= <- _]. split; reflexivity.
Qed.

(** A builder call returns a transaction when the deadline can be computed
    and its texts can be encoded. *)
Lemma perform_returns (c : Call) (h : Heap Creator) (d : Z) :
  is_create c = true ->
  encodable c = true ->
  deadline_at (self h) (world h) (clock_reads (world h)) = inr d ->
  exists tx h', perform MosaicFlags c h = (Built tx, h').
Proof.
  intros Hc He Hd. unfold encodable in He.
  destruct c; try discriminate Hc; cbn [perform texts_of] in *.
  - rewrite create_transfer_transaction_run, Hd.
    cbn [forallb] in He. rewrite andb_true_r in He.
    apply utf8_encode_defined in He. destruct He as [bs ->].
    eexists _, _. reflexivity.
  - rewrite create_aggregate_transfer_transaction_run, Hd.
    destruct (encode_all_defined _ He) as [bss ->].
    eexists _, _. reflexivity.
  - rewrite create_mosaic_definition_transaction_run, Hd.
    eexists _, _. reflexivity.
  - rewrite create_mosaic_supply_change_transaction_run, Hd.
    eexists _, _. reflexivity.
  - rewrite create_mosaic_metadata_transaction_run, Hd.
    cbn [forallb] in He. rewrite andb_true_r in He.
    apply andb_true_iff in He. destruct He as [Hk Hv].
    apply utf8_encode_defined in Hk. destruct Hk as [kb Hk].
    apply utf8_encode_defined in Hv. destruct Hv as [vb ->].
    unfold generate_uint64_key. rewrite Hk.
    eexists _, _. reflexivity.
Qed.

Lemma deadline_at_formula (c : Creator) (w : World) (n : nat) :
  0 <= _expiration_hour c ->
  plain_window c w n ->
  deadline_at c w n =
  inr (spec_deadline (clock w n) (_expiration_hour c) (_epoch_adjustment c)).
Proof.
  unfold plain_window, deadline_at, add_hours, reading, spec_deadline.
  cbn [wall microsecond]. intros Hh (Hnow & Hrange & Hzone).
  destruct (Z.leb_spec MIN_WALL
              (localtime w (clock w n / 1000000) + 3600 * _expiration_hour c));
    [|lia].
  destruct (Z.leb_spec
              (localtime w (clock w n / 1000000) + 3600 * _expiration_hour c)
              MAX_WALL); [|lia].
  cbn [andb]. unfold timestamp, int_of_float. cbn [wall microsecond].
  rewrite Hzone. f_equal. f_equal. f_equal.
  rewrite Z.quot_div_nonneg by (Z.div_mod_to_equations; lia).
  Z.div_mod_to_equations. lia.
Qed.

Lemma spec_deadline_monotone (now1 now2 eh ea : Z) :
  now1 <= now2 -> spec_deadline now1 eh ea <= spec_deadline now2 eh ea.
Proof. unfold spec_deadline. intros H. Z.div_mod_to_equations. lia. Qed.

Lemma spec_deadline_strict (now1 now2 eh ea : Z) :
  now1 / 1000000 < now2 / 1000000 ->
  spec_deadline now1 eh ea < spec_deadline now2 eh ea.
Proof. unfold spec_deadline. lia. Qed.


(* ----------------------------------------------------------------- *)
(** ** Aggregate transfers *)

Lemma encode_all_length (messages : list str) (bss : list (list byte)) :
  encode_all messages = Some bss -> length bss = length messages.
Proof.
  revert bss. induction messages as [|m rest IH]; intros bss;
    cbn [encode_all].
  - intros [= <-]. reflexivity.
  - destruct (utf8_encode m) as [bs|]; [|discriminate].
    destruct (encode_all rest) as [bss'|]; [|discriminate].
    intros [= <-]. cbn [length]. now rewrite (IH bss' eq_refl).
Qed.

Lemma encode_all_nth (messages : list str) (bss : list (list byte))
    (i : nat) (m : str) :
  encode_all messages = Some bss ->
  nth_error messages i = Some m ->
  exists bs, utf8_encode m = Some bs /\ nth_error bss i = Some bs.
Proof.
  revert bss i. induction messages as [|m0 rest IH]; intros bss i;
    cbn [encode_all].
  - intros _ Hi. destruct i; discriminate Hi.
  - destruct (utf8_encode m0) as [bs0|] eqn:E0; [|discriminate].
    destruct (encode_all rest) as [bss'|]; [|discriminate].
    intros [= <-]. destruct i as [|i]; cbn [nth_error].
    + intros [= <-]. now exists bs0.
    + intros Hi. exact (IH bss' i eq_refl Hi).
Qed.

Lemma encode_all_injective (ms1 ms2 : list str) (bss : list (list byte)) :
  encode_all ms1 = Some bss -> encode_all ms2 = Some bss -> ms1 = ms2.
Proof.
  revert ms2 bss. induction ms1 as [|m1 r1 IH]; intros ms2 bss;
    cbn [encode_all].
  - intros [= <-]. destruct ms2 as [|m2 r2]; [reflexivity|].
    cbn [encode_all].
    destruct (utf8_encode m2); [|discriminate].
    destruct (encode_all r2); discriminate.
  - destruct (utf8_encode m1) as [b1|] eqn:E1; [|discriminate].
    destruct (encode_all r1) as [bs1|] eqn:R1; [|discriminate].
    intros [= <-]. destruct ms2 as [|m2 r2]; [discriminate|].
    cbn [encode_all].
    destruct (utf8_encode m2) as [b2|] eqn:E2; [|discriminate].
    destruct (encode_all r2) as [bs2|] eqn:R2; [|discriminate].
    intros [= -> ->]. f_equal.
    + exact (utf8_encode_injective m1 m2 b1 E1 E2).
    + exact (IH r2 bs1 eq_refl R2).
Qed.

Lemma embedded_transfers_injective (signer : PublicKey) (recipient : Address)
    (mosaics : list Mosaic) (bss1 bss2 : list (list byte)) :
  map (embedded_transfer signer recipient mosaics) bss1
  = map (embedded_transfer signer recipient mosaics) bss2 ->
  bss1 = bss2.
Proof.
  revert bss2. induction bss1 as [|b1 r1 IH]; intros [|b2 r2]; cbn [map];
    try discriminate; [reflexivity|].
  unfold embedded_transfer at 1 3. intros [= -> Hr]. f_equal. exact (IH r2 Hr).
Qed.

(** What an aggregate transfer that returns is made of. *)
Lemma aggregate_transfer_returned (signer : PublicKey) (recipient : Address)
    (mosaics : list Mosaic) (messages : list str) (h h' : Heap Creator)
    (tx : Transaction) :
  create_aggregate_transfer_transaction signer recipient mosaics messages h
  = (inr tx, h') ->
  exists deadline bss,
    encode_all messages = Some bss
    /\ body tx =
       AggregateCompleteTransaction signer (_max_fee (self h)) deadline
         (hash_embedded_transactions (_facade (self h))
            (map (embedded_transfer signer recipient mosaics) bss))
         (map (embedded_transfer signer recipient mosaics) bss).
Proof.
  rewrite create_aggregate_transfer_transaction_run.
  destruct (deadline_at _ _ _) as [|d]; [discriminate|].
  destruct (encode_all messages) as [bss|]; [|discriminate].
  intros [= <- _]. now exists d, bss.
Qed.


(* ----------------------------------------------------------------- *)
(** ** Messages and values *)

Lemma encode_all_middle (before after : list str) (text : str)
    (bss : list (list byte)) :
  encode_all (before ++ text :: after) = Some bss ->
  exists bs, utf8_encode text = Some bs
             /\ nth_error bss (length before) = Some bs.
Proof.
  intros H. apply (encode_all_nth _ _ (length before) text H).
  rewrite nth_error_app2 by apply Nat.le_refl.
  now rewrite Nat.sub_diag.
Qed.

Lemma encode_all_undefined (before after : list str) (text : str) :
  utf8_encode text = None -> encode_all (before ++ text :: after) = None.
Proof.
  intros H. destruct (encode_all (before ++ text :: after)) as [bss|] eqn:E;
    [|reflexivity].
  destruct (encode_all_middle _ _ _ _ E) as (bs & Hbs & _). congruence.
Qed.

(** C3.  A text that has a UTF-8 encoding [bs] is carried as one zero byte
    followed by [bs], in the message of a transfer, in the message of each
    embedded transfer of an aggregate and in the value of a metadata
    transaction, and the bytes after the first decode to the text again.
    A text with no encoding (one that holds a code point that is not a
    Unicode scalar value, such as a lone surrogate) makes the three
    builders raise. *)
Theorem text_encoding (text : str) :
  match utf8_encode text with
  | Some bs =>
      utf8_decode (skipn 1 (bytes_zero 1 ++ bs)) = Some text
      /\ (forall signer recipient mosaics h deadline,
            deadline_at (self h) (world h) (clock_reads (world h))
            = inr deadline ->
            exists tx h',
              create_transfer_transaction signer recipient mosaics text h
              = (inr tx, h')
              /\ message_of (body tx) = Some (x00 :: bs))
      /\ (forall signer recipient mosaics before after h tx h',
            create_aggregate_transfer_transaction signer recipient mosaics
              (before ++ text :: after) h = (inr tx, h') ->
            exists inner,
              transactions_of (body tx) = Some inner
              /\ nth_error inner (length before) =
                 Some (EmbeddedTransferTransaction signer recipient mosaics
                         (x00 :: bs)))
      /\ (forall signer target id key_text key h deadline,
            deadline_at (self h) (world h) (clock_reads (world h))
            = inr deadline ->
            generate_uint64_key key_text = inr key ->
            exists tx h',
              create_mosaic_metadata_transaction signer target id key_text
                text h = (inr tx, h')
              /\ transactions_of (body tx) =
                 Some [EmbeddedMosaicMetadataTransaction signer target id key
                         (x00 :: bs) (1 + Z.of_nat (length bs))])
  | None =>
      forallb is_scalar_value text = false
      /\ (forall signer recipient mosaics h,
            exists e h',
              create_transfer_transaction signer recipient mosaics text h
              = (inl e, h'))
      /\ (forall signer recipient mosaics before after h,
            exists e h',
              create_aggregate_transfer_transaction signer recipient mosaics
                (before ++ text :: after) h = (inl e, h'))
      /\ (forall signer target id key_text h,
            exists e h',
              create_mosaic_metadata_transaction signer target id key_text
                text h = (inl e, h'))
  end.
Proof.
  destruct (utf8_encode text) as [bs|] eqn:E.
  - split; [|split; [|split]].
    + cbn [bytes_zero repeat app skipn]. exact (utf8_decode_encode _ _ E).
    + intros signer recipient mosaics h d Hd.
      rewrite create_transfer_transaction_run, Hd, E.
      eexists _, _. split; reflexivity.
    + intros signer recipient mosaics before after h tx h' Hrun.
      destruct (aggregate_transfer_returned _ _ _ _ _ _ _ Hrun)
        as (d & bss & Henc & ->).
      eexists. split; [reflexivity|].
      destruct (encode_all_middle _ _ _ _ Henc) as (bs' & Hbs & Hnth).
      rewrite nth_error_map, Hnth.
      assert (bs' = bs) by congruence. subst bs'. reflexivity.
    + intros signer target id key_text key h d Hd Hk.
      rewrite create_mosaic_metadata_transaction_run, Hd, Hk, E.
      eexists _, _. split; [reflexivity|].
      cbn [body create transactions_of length]. do 3 f_equal. lia.
  - split; [|split; [|split]].
    + destruct (forallb is_scalar_value text) eqn:F; [|reflexivity].
      apply utf8_encode_defined in F. destruct F as [bs F]. congruence.
    + intros signer recipient mosaics h.
      rewrite create_transfer_transaction_run, E.
      destruct (deadline_at _ _ _); eexists _, _; reflexivity.
    + intros signer recipient mosaics before after h.
      rewrite create_aggregate_transfer_transaction_run,
        (encode_all_undefined _ _ _ E).
      destruct (deadline_at _ _ _); eexists _, _; reflexivity.
    + intros signer target id key_text h.
      rewrite create_mosaic_metadata_transaction_run, E.
      destruct (deadline_at _ _ _); [eexists _, _; reflexivity|].
      destruct (generate_uint64_key key_text); eexists _, _; reflexivity.
Qed.

(* ----------------------------------------------------------------- *)
(** ** Metadata *)

(** C5.  Whatever it is given, [create_mosaic_metadata_transaction] returns
    nothing but an AggregateComplete transaction that holds exactly one
    embedded mosaic-metadata transaction, whose scoped metadata key is
    [KeyGenerator.generate_uint64_key] of the key string; it never returns
    a metadata transaction on its own.  It returns whenever the deadline
    can be computed and the key string and the value can be encoded. *)
Theorem metadata_is_wrapped (signer : PublicKey) (target_address : Address)
    (target_mosaic_id : Z) (scoped_metadata_key value : str)
    (h : Heap Creator) :
  (forall tx h',
      create_mosaic_metadata_transaction signer target_address
        target_mosaic_id scoped_metadata_key value h = (inr tx, h') ->
      is_bare_metadata (body tx) = false
      /\ exists deadline key encoded delta,
           generate_uint64_key scoped_metadata_key = inr key
           /\ body tx =
              AggregateCompleteTransaction signer (_max_fee (self h)) deadline
                (hash_embedded_transactions (_facade (self h))
                   [EmbeddedMosaicMetadataTransaction signer target_address
                      target_mosaic_id key encoded delta])
                [EmbeddedMosaicMetadataTransaction signer target_address
                   target_mosaic_id key encoded delta])
  /\ (forall deadline,
        deadline_at (self h) (world h) (clock_reads (world h)) = inr deadline ->
        forallb is_scalar_value scoped_metadata_key = true ->
        forallb is_scalar_value value = true ->
        exists tx h',
          create_mosaic_metadata_transaction signer target_address
            target_mosaic_id scoped_metadata_key value h = (inr tx, h')).
Proof.
  rewrite create_mosaic_metadata_transaction_run. split.
  - intros tx h'.
    destruct (deadline_at _ _ _) as [|d]; [discriminate|].
    destruct (generate_uint64_key scoped_metadata_key) as [|key];
      [discriminate|].
    destruct (utf8_encode value) as [bs|]; [|discriminate].
    intros [= <- _]. split; [reflexivity|].
    exists d, key, (x00 :: bs), (Z.of_nat (length (x00 :: bs))).
    split; reflexivity.
  - intros d -> Hk Hv.
    apply utf8_encode_defined in Hk. destruct Hk as [kb Hk].
    apply utf8_encode_defined in Hv. destruct Hv as [vb ->].
    unfold generate_uint64_key. rewrite Hk.
    eexists _, _. reflexivity.
Qed.

(* ----------------------------------------------------------------- *)
(** ** Mosaic flags *)

Lemma mosaic_flags_selected
    (transferable supply_mutable restrictable revokable : bool) :
  NONE MosaicFlags = 0 ->
  mosaic_flags MosaicFlags transferable supply_mutable restrictable revokable
  = selected_flags MosaicFlags transferable supply_mutable restrictable
                   revokable.
Proof.
  intros H0. unfold mosaic_flags, selected_flags. rewrite H0.
  destruct transferable, supply_mutable, restrictable, revokable;
    cbn [filter fst snd map fold_right];
    rewrite ?Z.lor_0_l, ?Z.lor_0_r, ?Z.lor_assoc; reflexivity.
Qed.

(** Each flag of the bitset is set exactly when its boolean is. *)
Lemma selected_flags_independent
    (transferable supply_mutable restrictable revokable : bool) :
  independent_flags MosaicFlags ->
  let flags := selected_flags MosaicFlags transferable supply_mutable
                              restrictable revokable in
  Z.land flags (TRANSFERABLE MosaicFlags)
  = (if transferable then TRANSFERABLE MosaicFlags else 0)
  /\ Z.land flags (SUPPLY_MUTABLE MosaicFlags)
     = (if supply_mutable then SUPPLY_MUTABLE MosaicFlags else 0)
  /\ Z.land flags (RESTRICTABLE MosaicFlags)
     = (if restrictable then RESTRICTABLE MosaicFlags else 0)
  /\ Z.land flags (REVOKABLE MosaicFlags)
     = (if revokable then REVOKABLE MosaicFlags else 0).
Proof.
  intros (H0 & Hts & Htr & Htv & Hsr & Hsv & Hrv).
  pose proof Hts as Hst. rewrite Z.land_comm in Hst.
  pose proof Htr as Hrt. rewrite Z.land_comm in Hrt.
  pose proof Htv as Hvt. rewrite Z.land_comm in Hvt.
  pose proof Hsr as Hrs. rewrite Z.land_comm in Hrs.
  pose proof Hsv as Hvs. rewrite Z.land_comm in Hvs.
  pose proof Hrv as Hvr. rewrite Z.land_comm in Hvr.
  unfold selected_flags.
  destruct transferable, supply_mutable, restrictable, revokable;
    cbn [filter fst snd map fold_right];
    rewrite ?Z.land_lor_distr_l, ?Z.land_diag, ?Z.land_0_l,
      ?Hts, ?Htr, ?Htv, ?Hsr, ?Hsv, ?Hrv,
      ?Hst, ?Hrt, ?Hvt, ?Hrs, ?Hvs, ?Hvr,
      ?Z.lor_0_l, ?Z.lor_0_r;
    repeat split; reflexivity.
Qed.

(** C6.  With the members of [MosaicFlags] being flags ([NONE] is zero and
    no two of the four others share a bit), the transaction built by
    [create_mosaic_definition_transaction] carries in [flags] the
    bitwise-or of exactly the members whose booleans are true: each member
    is set in it exactly when its own boolean is, and four false booleans
    give zero.  Divisibility and duration are carried as given.  The
    transaction is built whenever the deadline can be computed. *)
Theorem mosaic_definition_flags (signer : PublicKey)
    (divisibility duration : Z)
    (transferable supply_mutable restrictable revokable : bool)
    (h : Heap Creator) :
  independent_flags MosaicFlags ->
  (forall tx h',
      create_mosaic_definition_transaction MosaicFlags signer divisibility
        duration transferable supply_mutable restrictable revokable h
      = (inr tx, h') ->
      exists deadline nonce flags,
        body tx =
          MosaicDefinitionTransaction signer deadline (_max_fee (self h))
            (mkBlockDuration duration) nonce flags divisibility
        /\ flags = selected_flags MosaicFlags transferable supply_mutable
                                 restrictable revokable
        /\ Z.land flags (TRANSFERABLE MosaicFlags)
           = (if transferable then TRANSFERABLE MosaicFlags else 0)
        /\ Z.land flags (SUPPLY_MUTABLE MosaicFlags)
           = (if supply_mutable then SUPPLY_MUTABLE MosaicFlags else 0)
        /\ Z.land flags (RESTRICTABLE MosaicFlags)
           = (if restrictable then RESTRICTABLE MosaicFlags else 0)
        /\ Z.land flags (REVOKABLE MosaicFlags)
           = (if revokable then REVOKABLE MosaicFlags else 0))
  /\ mosaic_flags MosaicFlags false false false false = 0
  /\ (forall deadline,
        deadline_at (self h) (world h) (clock_reads (world h)) = inr deadline ->
        exists tx h',
          create_mosaic_definition_transaction MosaicFlags signer divisibility
            duration transferable supply_mutable restrictable revokable h
          = (inr tx, h')).
Proof.
  intros Hind. rewrite create_mosaic_definition_transaction_run.
  split; [|split].
  - intros tx h'. destruct (deadline_at _ _ _) as [|d]; [discriminate|].
    intros [= <- _]. cbn [body create].
    eexists _, _, _. split; [reflexivity|].
    rewrite (mosaic_flags_selected _ _ _ _ (proj1 Hind)).
    split; [reflexivity|].
    exact (selected_flags_independent _ _ _ _ Hind).
  - rewrite (mosaic_flags_selected _ _ _ _ (proj1 Hind)). reflexivity.
  - intros d ->. eexists _, _. reflexivity.
Qed.

(* ----------------------------------------------------------------- *)
(** ** Announcing *)

(** C7.  [sign_and_announce_transaction] signs, attaches the signature,
    encodes the payload and sends one PUT to [/transactions].  Once the
    request is sent, it raises [AnnounceError] exactly when the status of
    the answer is not 202, and then it returns no hash; when the status is
    202 it returns the hash of the transaction as the signature was
    attached to it.  (A payload that cannot be encoded raises before
    anything is sent.) *)
Theorem announce_outcome (transaction : Transaction) (key_pair : KeyPair)
    (h : Heap Creator) :
  let facade := _facade (self h) in
  let signed :=
    attach_signature facade transaction
                     (sign_transaction facade key_pair transaction) in
  let run := sign_and_announce_transaction transaction key_pair h in
  match utf8_encode (snd signed) with
  | None => run = (inl UnicodeEncodeError, h)
  | Some payload =>
      let request :=
        mkRequest PUT (_node_url (self h) ++ lit "/transactions")
                  [(lit "Content-type", lit "application/json")] payload in
      let response := node (world h) (sent (world h)) request in
      sent (world (snd run)) = request :: sent (world h)
      /\ self (snd run) = self h
      /\ fst run =
         (if status_code response =? 202
          then inr (Hash256_str (hash_transaction facade (fst signed)))
          else inl (AnnounceError (status_message (status_code response))))
      /\ ((exists message, fst run = inl (AnnounceError message))
          <-> status_code response <> 202)
      /\ ((exists tx_hash, fst run = inr tx_hash)
          <-> status_code response = 202)
  end.
Proof.
  destruct h as [c w]. cbv zeta. cbn [self world].
  unfold sign_and_announce_transaction, bind, attr, gets. cbn [self world].
  destruct (attach_signature _ _ _) as [signed_tx json_payload].
  cbn [fst snd]. unfold encode.
  destruct (utf8_encode json_payload) as [payload|]; [|reflexivity].
  unfold ret at 1. unfold io, requests_put, request, print, modify, raise, ret.
  cbn [self world fst snd sent node record_request record_line].
  destruct (status_code _ =? 202) eqn:E; cbn [negb fst snd self world sent].
  - apply Z.eqb_eq in E. repeat split.
    + intros [m Hm]. discriminate Hm.
    + intros H. contradiction.
    + intros _. exact E.
    + intros _. eexists. reflexivity.
  - apply Z.eqb_neq in E. repeat split.
    + intros _. exact E.
    + intros _. eexists. reflexivity.
    + intros [s Hs]. discriminate Hs.
    + intros H. contradiction.
Qed.

(* ----------------------------------------------------------------- *)
(** ** The REST getters *)

Variable json_loads : str -> option json.

Lemma property_of_returns (content section key : str) (old base v : Z) :
  property_of json_loads content section key old base = inr v <->
  exists contents inner field,
    json_loads content = Some contents
    /\ getitem contents section = inr inner
    /\ getitem inner key = inr (JString field)
    /\ parse_int base (str_remove old field) = Some v.
Proof.
  unfold property_of, int_. split.
  - destruct (json_loads content) as [contents|]; [|discriminate].
    destruct (getitem contents section) as [|inner] eqn:G1; [discriminate|].
    destruct (getitem inner key) as [|field] eqn:G2; [discriminate|].
    destruct field as [| | |field| |]; try discriminate.
    cbn [replace_with_empty].
    destruct (parse_int base (str_remove old field)) as [n|] eqn:P;
      [|discriminate].
    intros [= <-]. exists contents, inner, field. auto.
  - intros (contents & inner & field & -> & -> & -> & H).
    cbn [replace_with_empty]. now rewrite H.
Qed.

Lemma property_of_no_query_error (content section key message : str)
    (old base : Z) :
  property_of json_loads content section key old base
  <> inl (NetworkQueryError message).
Proof.
  unfold property_of, int_, getitem, replace_with_empty.
  destruct (json_loads content) as [contents|]; [|discriminate].
  destruct contents; try discriminate.
  destruct (lookup section members) as [inner|]; [|discriminate].
  destruct inner; try discriminate.
  destruct (lookup key members0) as [field|]; [|discriminate].
  destruct field; try discriminate.
  destruct (parse_int base (str_remove old s)); discriminate.
Qed.

Lemma get_epoch_adjustment_run (h : Heap CatapultRESTAPI.t) :
  let response :=
    node (world h) (sent (world h)) (properties_request (self h)) in
  get_epoch_adjustment json_loads h =
  (if status_code response =? 200
   then property_of json_loads (text response) (lit "network")
          (lit "epochAdjustment") 115 10
   else inl (NetworkQueryError (status_message (status_code response))),
   requested (properties_request (self h)) h).
Proof.
  destruct h as [api w]. cbv zeta.
  unfold get_epoch_adjustment, property_of, loads, requested,
    properties_request, bind, attr, gets, io, requests_get, request, lift,
    raise, ret.
  cbn [self world].
  destruct (status_code _ =? 200); cbn [negb]; [|reflexivity].
  destruct (json_loads _) as [contents|]; [|reflexivity].
  destruct (getitem contents _) as [|inner]; [reflexivity|].
  destruct (getitem inner _) as [|field]; [reflexivity|].
  destruct (replace_with_empty field 115) as [|digits]; [reflexivity|].
  destruct (int_ 10 digits); reflexivity.
Qed.

Lemma get_currency_mosaic_id_run (h : Heap CatapultRESTAPI.t) :
  let response :=
    node (world h) (sent (world h)) (properties_request (self h)) in
  get_currency_mosaic_id json_loads h =
  (if status_code response =? 200
   then property_of json_loads (text response) (lit "chain")
          (lit "currencyMosaicId") 39 16
   else inl (NetworkQueryError (status_message (status_code response))),
   requested (properties_request (self h)) h).
Proof.
  destruct h as [api w]. cbv zeta.
  unfold get_currency_mosaic_id, property_of, loads, requested,
    properties_request, bind, attr, gets, io, requests_get, request, lift,
    raise, ret.
  cbn [self world].
  destruct (status_code _ =? 200); cbn [negb]; [|reflexivity].
  destruct (json_loads _) as [contents|]; [|reflexivity].
  destruct (getitem contents _) as [|inner]; [reflexivity|].
  destruct (getitem inner _) as [|field]; [reflexivity|].
  destruct (replace_with_empty field 39) as [|digits]; [reflexivity|].
  destruct (int_ 16 digits); reflexivity.
Qed.

(** What a getter gives, by the status of the answer. *)
Lemma getter_outcome (status : Z) (content section key : str)
    (old base : Z) :
  let result :=
    if status =? 200
    then property_of json_loads content section key old base
    else inl (NetworkQueryError (status_message status)) in
  ((exists message, result = inl (NetworkQueryError message))
   <-> status <> 200)
  /\ (forall v,
        result = inr v <->
        status = 200
        /\ exists contents inner field,
             json_loads content = Some contents
             /\ getitem contents section = inr inner
             /\ getitem inner key = inr (JString field)
             /\ parse_int base (str_remove old field) = Some v).
Proof.
  cbv zeta. destruct (Z.eqb_spec status 200) as [E|E]; split.
  - split; [|contradiction].
    intros [m Hm]. now apply property_of_no_query_error in Hm.
  - intros v. rewrite property_of_returns. tauto.
  - split; [intros _; exact E | intros _; eexists; reflexivity].
  - intros v. split; [discriminate | tauto].
Qed.

(** C8, as the code has it.  Each getter sends one GET to
    [/network/properties] and raises [NetworkQueryError] exactly when the
    status of the answer is not 200 (any other status, those of the form
    2xx included), in which case it returns no value.  With status 200
    [get_epoch_adjustment] returns [v] exactly when the answer is a JSON
    text whose [network.epochAdjustment] is a string that reads as the
    integer [v] once every letter s is taken out, and
    [get_currency_mosaic_id] returns [v] exactly when
    [chain.currencyMosaicId] is a string that reads as [v] in base 16 once
    every apostrophe is taken out. *)
Theorem network_properties_queries (h : Heap CatapultRESTAPI.t) :
  let request := properties_request (self h) in
  let response := node (world h) (sent (world h)) request in
  let epoch := get_epoch_adjustment json_loads h in
  let currency := get_currency_mosaic_id json_loads h in
  ((exists message, fst epoch = inl (NetworkQueryError message))
   <-> status_code response <> 200)
  /\ ((exists message, fst currency = inl (NetworkQueryError message))
      <-> status_code response <> 200)
  /\ (forall v,
        fst epoch = inr v <->
        status_code response = 200
        /\ exists contents network field,
             json_loads (text response) = Some contents
             /\ getitem contents (lit "network") = inr network
             /\ getitem network (lit "epochAdjustment") = inr (JString field)
             /\ parse_int 10 (str_remove 115 field) = Some v)
  /\ (forall v,
        fst currency = inr v <->
        status_code response = 200
        /\ exists contents chain field,
             json_loads (text response) = Some contents
             /\ getitem contents (lit "chain") = inr chain
             /\ getitem chain (lit "currencyMosaicId") = inr (JString field)
             /\ parse_int 16 (str_remove 39 field) = Some v)
  /\ sent (world (snd epoch)) = request :: sent (world h)
  /\ sent (world (snd currency)) = request :: sent (world h).
Proof.
  cbv zeta.
  rewrite get_epoch_adjustment_run, get_currency_mosaic_id_run.
  cbv zeta. cbn [fst snd].
  pose proof (getter_outcome
                (status_code (node (world h) (sent (world h))
                                (properties_request (self h))))
                (text (node (world h) (sent (world h))
                         (properties_request (self h))))
                (lit "network") (lit "epochAdjustment") 115 10) as [E1 E2].
  pose proof (getter_outcome
                (status_code (node (world h) (sent (world h))
                                (properties_request (self h))))
                (text (node (world h) (sent (world h))
                         (properties_request (self h))))
                (lit "chain") (lit "currencyMosaicId") 39 16) as [C1 C2].
  split; [exact E1|]. split; [exact C1|]. split; [exact E2|].
  split; [exact C2|]. split; reflexivity.
Qed.

(* ----------------------------------------------------------------- *)
(** ** The constructor *)

Variable SymbolFacade_new : str -> SymbolFacade.


(* ----------------------------------------------------------------- *)
(** ** The configuration of a builder *)

Lemma same_platform_refl (w : World) : same_platform w w.
Proof. repeat split. Qed.

Lemma same_platform_trans (w1 w2 w3 : World) :
  same_platform w1 w2 -> same_platform w2 w3 -> same_platform w1 w3.
Proof.
  unfold same_platform. intros (A1 & A2 & A3) (B1 & B2 & B3).
  repeat split; congruence.
Qed.

Lemma deadline_at_same_platform (c : Creator) (w w' : World) (n : nat) :
  same_platform w w' -> deadline_at c w' n = deadline_at c w n.
Proof.
  unfold same_platform, deadline_at, reading, timestamp.
  intros (-> & -> & ->). reflexivity.
Qed.

Lemma sign_and_announce_transaction_frame (transaction : Transaction)
    (key_pair : KeyPair) (h : Heap Creator) :
  self (snd (sign_and_announce_transaction transaction key_pair h)) = self h
  /\ same_platform (world h)
       (world (snd (sign_and_announce_transaction transaction key_pair h))).
Proof.
  destruct h as [c w].
  unfold sign_and_announce_transaction, bind, attr, gets. cbn [self world].
  destruct (attach_signature _ _ _) as [signed_tx json_payload].
  unfold encode.
  destruct (utf8_encode json_payload) as [payload|];
    [|split; [reflexivity | apply same_platform_refl]].
  unfold ret at 1.
  unfold io, requests_put, request, print, modify, raise, ret.
  cbn [self world fst snd sent node record_request record_line].
  destruct (status_code _ =? 202); cbn [negb snd self world];
    repeat split.
Qed.

(** No call assigns to the builder, and none changes the clock or the zone
    it reads. *)
Lemma perform_frame (c : Call) (h : Heap Creator) :
  self (snd (perform MosaicFlags c h)) = self h
  /\ same_platform (world h) (world (snd (perform MosaicFlags c h))).
Proof.
  destruct c; cbn [perform].
  - rewrite create_transfer_transaction_run.
    destruct (deadline_at _ _ _); [repeat split|].
    destruct (utf8_encode message); repeat split.
  - rewrite create_aggregate_transfer_transaction_run.
    destruct (deadline_at _ _ _); [repeat split|].
    destruct (encode_all messages); repeat split.
  - rewrite create_mosaic_definition_transaction_run.
    destruct (deadline_at _ _ _); repeat split.
  - rewrite create_mosaic_supply_change_transaction_run.
    destruct (deadline_at _ _ _); repeat split.
  - rewrite create_mosaic_metadata_transaction_run.
    destruct (deadline_at _ _ _); [repeat split|].
    destruct (generate_uint64_key scoped_metadata_key); [repeat split|].
    destruct (utf8_encode value); repeat split.
  - destruct (sign_and_announce_transaction_frame transaction key_pair h)
      as [Hs Hp].
    destruct (sign_and_announce_transaction transaction key_pair h)
      as [res h'].
    cbn [snd] in *. split; assumption.
Qed.

(** Only a builder call gives a transaction. *)
Lemma perform_built_is_create (c : Call) (h : Heap Creator)
    (tx : Transaction) :
  fst (perform MosaicFlags c h) = Built tx -> is_create c = true.
Proof.
  destruct c; try reflexivity. cbn [perform].
  destruct (sign_and_announce_transaction transaction key_pair h)
    as [[e|s] h']; discriminate.
Qed.

(** What a transaction built by a builder [c] in a world [w] carries: the
    fee of [c] and a deadline computed by [c] from a reading of [w]. *)
Lemma perform_all_frame (cs : list Call) (h : Heap Creator) :
  self (snd (perform_all MosaicFlags cs h)) = self h
  /\ same_platform (world h) (world (snd (perform_all MosaicFlags cs h)))
  /\ length (fst (perform_all MosaicFlags cs h)) = length cs
  /\ Forall (fun o =>
               forall tx, o = Built tx ->
                 fee_of (body tx) = _max_fee (self h)
                 /\ exists n,
                      deadline_at (self h) (world h) n
                      = inr (deadline_of (body tx)))
            (fst (perform_all MosaicFlags cs h)).
Proof.
  revert h. induction cs as [|c rest IH]; intros h; cbn [perform_all].
  - cbn [fst snd length]. repeat split. constructor.
  - destruct (perform_frame c h) as [Hs Hp].
    destruct (perform MosaicFlags c h) as [o h1] eqn:P.
    cbn [snd] in Hs, Hp.
    destruct (IH h1) as (Is & Ip & Il & If).
    destruct (perform_all MosaicFlags rest h1) as [os h2].
    cbn [fst snd length] in *.
    split; [congruence|].
    split; [exact (same_platform_trans _ _ _ Hp Ip)|].
    split; [congruence|].
    constructor.
    + intros tx ->.
      assert (Hc : is_create c = true).
      { apply (perform_built_is_create c h tx). now rewrite P. }
      destruct (perform_built c h h1 tx Hc P) as [Hd Hf].
      split; [exact Hf|]. eexists. exact Hd.
    + apply (Forall_impl _ (P := fun o =>
               forall tx, o = Built tx ->
                 fee_of (body tx) = _max_fee (self h1)
                 /\ exists n,
                      deadline_at (self h1) (world h1) n
                      = inr (deadline_of (body tx)))); [|exact If].
      intros o' Ho tx Hb. destruct (Ho tx Hb) as [Hf [n Hn]].
      split; [congruence|]. exists n.
      rewrite <- Hn, Hs. symmetry.
      apply deadline_at_same_platform. exact Hp.
Qed.

(** C10.  After any sequence of calls on a builder (the five [create_*]
    methods and [sign_and_announce_transaction], whether they return or
    raise) the builder holds the facade, node URL, epoch adjustment, fee,
    expiration and explorer URL it held before: they are assigned by the
    constructor alone.  Every transaction built along the way carries the
    same [max_fee], and its deadline is computed from a reading of the
    clock with the same epoch adjustment and expiration. *)
Theorem configuration_is_fixed (cs : list Call) (h : Heap Creator) :
  self (snd (perform_all MosaicFlags cs h)) = self h
  /\ length (fst (perform_all MosaicFlags cs h)) = length cs
  /\ Forall (fun o =>
               forall tx, o = Built tx ->
                 fee_of (body tx) = _max_fee (self h)
                 /\ exists n later,
                      add_hours (reading (world h) n) (_expiration_hour (self h))
                      = inr later
                      /\ deadline_of (body tx)
                         = (int_of_float (timestamp (world h) later)
                            - _epoch_adjustment (self h)) * 1000)
            (fst (perform_all MosaicFlags cs h)).
Proof.
  destruct (perform_all_frame cs h) as (Hs & _ & Hl & Hf).
  split; [exact Hs|]. split; [exact Hl|].
  apply (Forall_impl _ (P := fun o =>
           forall tx, o = Built tx ->
             fee_of (body tx) = _max_fee (self h)
             /\ exists n,
                  deadline_at (self h) (world h) n
                  = inr (deadline_of (body tx)))); [|exact Hf].
  intros o Ho tx Hb. destruct (Ho tx Hb) as [Hfee [n Hn]].
  split; [exact Hfee|]. exists n. unfold deadline_at in Hn.
  destruct (add_hours (reading (world h) n) (_expiration_hour (self h)))
    as [|later]; [discriminate|].
  exists later. split; [reflexivity|]. congruence.
Qed.

End Properties.

(* ================================================================= *)
(** * The program on the sample values *)



(** Where the formula needs its conditions: in a zone that moves its clocks
    forward within the two hours the deadline is one hour short of the
    formula, and an expiration that leaves the calendar raises. *)
Example deadline_outside_plain_window :
  deadline_at Sample.creator Sample.shifting_world 0
  = inr (spec_deadline 1700000000100000 2 1637848847 - 3600000)
  /\ deadline_at (mk Sample.facade Sample.node_url 1637848847
                    (mkAmount 2000000) 100000000 [])
                 (world (Sample.heap 202)) 0
     = inl OverflowError.
Proof. split; vm_compute; reflexivity. Qed.

(** The flags of the SDK (0, 1, 2, 4, 8) are independent; a mosaic that is
    transferable and revokable gets the flags 2 + 8. *)
Lemma mosaic_definition_flags_sample :
  exists tx h' deadline nonce,
    create_mosaic_definition_transaction Sample.flags Sample.signer 0 1000
      true false false true (Sample.heap 202) = (inr tx, h')
    /\ body tx =
       MosaicDefinitionTransaction Sample.signer deadline (mkAmount 2000000)
         (mkBlockDuration 1000) nonce 10 0.
Proof.
  assert (Hind : independent_flags Sample.flags) by (repeat split).
  destruct (mosaic_definition_flags Sample.flags Sample.signer 0 1000
              true false false true (Sample.heap 202) Hind)
    as (Hbuilt & _ & Hret).
  destruct (Hret 62158353000 eq_refl) as (tx & h' & Hrun).
  destruct (Hbuilt tx h' Hrun) as (d & n & fl & Hbody & Hfl & _).
  exists tx, h', d, n. split; [exact Hrun|].
  rewrite Hbody, Hfl. reflexivity.
Defined.

(** The answers of a node as the public ones give them. *)
Example network_properties_sample :
  fst (get_epoch_adjustment Sample.json_loads
         (mkHeap Sample.api (Sample.world 200 (lit "properties"))))
  = inr 1637848847
  /\ fst (get_currency_mosaic_id Sample.json_loads
           (mkHeap Sample.api (Sample.world 200 (lit "properties"))))
     = inr 0x3A8416DB2D53B6C8.
Proof. split; vm_compute; reflexivity. Qed.

(** C8 as stated fails on the code: 204 is a status of success, and both
    getters raise on it. *)
Lemma status_204_is_refused :
  200 <= 204 < 300
  /\ fst (get_epoch_adjustment Sample.json_loads
           (mkHeap Sample.api (Sample.world 204 (lit "properties"))))
     = inl (NetworkQueryError (lit "status code is 204"))
  /\ fst (get_currency_mosaic_id Sample.json_loads
           (mkHeap Sample.api (Sample.world 204 (lit "properties"))))
     = inl (NetworkQueryError (lit "status code is 204")).
Proof. split; [lia|]. split; vm_compute; reflexivity. Qed.

(** A node that answers 500: [AnnounceError], no hash; one that answers
    202: the hash, in upper-case hexadecimal. *)
Example announce_sample :
  fst (sign_and_announce_transaction
         (create (TransferTransaction Sample.signer 0 (mkAmount 0)
                    Sample.recipient [] []))
         Sample.key_pair (Sample.heap 500))
  = inl (AnnounceError (lit "status code is 500"))
  /\ fst (sign_and_announce_transaction
           (create (TransferTransaction Sample.signer 0 (mkAmount 0)
                      Sample.recipient [] []))
           Sample.key_pair (Sample.heap 202))
     = inr (flat_map (fun _ => lit "02") (seq 0 32)).
Proof. split; vm_compute; reflexivity. Qed.

(* ================================================================= *)
(** * A 256-bit hash cannot tell all sequences apart *)

Lemma no_injection_into_list {B : Type} (E : list B) (f : nat -> B) :
  (forall i, In (f i) E) -> ~ (forall i j, f i = f j -> i = j).
Proof.
  intros Hin Hinj.
  assert (Hnd : NoDup (map f (seq 0 (S (length E))))).
  { apply Injective_map_NoDup; [exact Hinj | apply seq_NoDup]. }
  assert (Hincl : incl (map f (seq 0 (S (length E)))) E).
  { intros b Hb. apply in_map_iff in Hb. destruct Hb as (i & <- & _).
    apply Hin. }
  pose proof (NoDup_incl_length Hnd Hincl) as Hlen.
  rewrite length_map, length_seq in Hlen. lia.
Qed.

Lemma all_bytes_complete (b : byte) : In b all_bytes.
Proof.
  unfold all_bytes. apply in_map_iff.
  exists (Z.to_nat (Z_of_byte b)).
  pose proof (Z_of_byte_range b). split.
  - rewrite Z2Nat.id by lia. apply byte_of_Z_of_byte.
  - apply in_seq. lia.
Qed.

Lemma byte_lists_complete (l : list byte) : In l (byte_lists (length l)).
Proof.
  induction l as [|b l IH]; cbn [length byte_lists].
  - now left.
  - apply in_flat_map. exists b. split; [apply all_bytes_complete|].
    apply in_map. exact IH.
Qed.

Lemma Hash256_eq (a b : Hash256) : hash_bytes a = hash_bytes b -> a = b.
Proof.
  destruct a as [x p], b as [y q]. cbn [hash_bytes]. intros ->.
  f_equal. apply UIP_dec. apply bool_dec.
Qed.

Lemma Hash256_listed (a : Hash256) : In (hash_bytes a) (byte_lists 32).
Proof.
  pose proof (byte_lists_complete (hash_bytes a)) as H.
  pose proof (hash_size a) as Hs. apply Nat.eqb_eq in Hs.
  rewrite Hs in H. exact H.
Qed.

Lemma utf8_encode_letters (i : nat) :
  utf8_encode (Sample.letters i) = Some (repeat x61 i).
Proof.
  unfold Sample.letters.
  induction i as [|i IH]; cbn [repeat utf8_encode]; [reflexivity|].
  rewrite IH. reflexivity.
Qed.

(** The aggregate of the one message [letters i], built in [world_for c]. *)
Lemma aggregate_of_letters (c : Creator) (i : nat) :
  exists deadline h',
    create_aggregate_transfer_transaction Sample.signer Sample.recipient []
      [Sample.letters i] (mkHeap c (Sample.world_for c))
    = (inr (create
              (AggregateCompleteTransaction Sample.signer (_max_fee c) deadline
                 (hash_embedded_transactions (_facade c)
                    [embedded_transfer Sample.signer Sample.recipient []
                       (repeat x61 i)])
                 [embedded_transfer Sample.signer Sample.recipient []
                    (repeat x61 i)])), h').
Proof.
  rewrite create_aggregate_transfer_transaction_run.
  cbn [self world encode_all]. rewrite utf8_encode_letters.
  unfold deadline_at, add_hours, reading, Sample.world_for.
  cbn [clock clock_reads localtime wall microsecond].
  replace (- (3600 * _expiration_hour c) + 3600 * _expiration_hour c)
    with 0 by lia.
  cbn [map]. eexists _, _. reflexivity.
Qed.


(* ================================================================= *)
(** * Further properties of the program *)

(** The nonce of a mosaic definition. *)
Definition nonce_of (d : Descriptor) : option MosaicNonce :=
  match d with
  | MosaicDefinitionTransaction _ _ _ _ n _ _ => Some n
  | _ => None
  end.

(** The network time a builder [c] stands at on the [n]-th reading, in
    milliseconds: the clock less the epoch adjustment. *)
Definition network_now (c : Creator) (w : World) (n : nat) : Z :=
  clock w n / 1000 - _epoch_adjustment c * 1000.

(** The exception of an outcome. *)
Definition raised (o : Outcome) : option exn :=
  match o with
  | Raised e => Some e
  | _ => None
  end.

Section Builders.

Variable MosaicFlags : MosaicFlagsEnum.

(** The only way the deadline fails is a date outside of the calendar. *)
Lemma deadline_at_raises (c : Creator) (w : World) (n : nat) (e : exn) :
  deadline_at c w n = inl e -> e = OverflowError.
Proof.
  unfold deadline_at, add_hours.
  destruct (_ && _); [discriminate|]. now intros [= <-].
Qed.

(** The state a builder call leaves: the clock was read once, or twice by a
    mosaic definition; the rest is as it was. *)
Lemma perform_create_state (c : Call) (h : Heap Creator) :
  is_create c = true ->
  snd (perform MosaicFlags c h) = ticked h
  \/ snd (perform MosaicFlags c h) = ticked (ticked h).
Proof.
  intros Hc. destruct c; try discriminate Hc; cbn [perform].
  - rewrite create_transfer_transaction_run.
    destruct (deadline_at _ _ _); [now left|].
    destruct (utf8_encode message); now left.
  - rewrite create_aggregate_transfer_transaction_run.
    destruct (deadline_at _ _ _); [now left|].
    destruct (encode_all messages); now left.
  - rewrite create_mosaic_definition_transaction_run.
    destruct (deadline_at _ _ _); [now left | now right].
  - rewrite create_mosaic_supply_change_transaction_run.
    destruct (deadline_at _ _ _); now left.
  - rewrite create_mosaic_metadata_transaction_run.
    destruct (deadline_at _ _ _); [now left|].
    destruct (generate_uint64_key scoped_metadata_key); [now left|].
    destruct (utf8_encode value); now left.
Qed.

(** X1.  A [create_*] call, whether it returns or raises, sends nothing to
    the node and prints nothing: the requests sent and the lines printed
    are those of before.  All it does to the world is to read the clock,
    once or twice. *)
Theorem builders_do_no_io (c : Call) (h : Heap Creator) :
  is_create c = true ->
  sent (world (snd (perform MosaicFlags c h))) = sent (world h)
  /\ stdout (world (snd (perform MosaicFlags c h))) = stdout (world h)
  /\ self (snd (perform MosaicFlags c h)) = self h
  /\ (clock_reads (world (snd (perform MosaicFlags c h)))
      = S (clock_reads (world h))
      \/ clock_reads (world (snd (perform MosaicFlags c h)))
         = S (S (clock_reads (world h)))).
Proof.
  intros Hc.
  destruct (perform_create_state c h Hc) as [-> | ->];
    repeat split; (now left) || (now right).
Qed.


(** X3.  The deadline of every transaction built is a whole number of
    seconds, counted in milliseconds. *)
Theorem deadline_whole_seconds (c : Call) (h h' : Heap Creator)
    (tx : Transaction) :
  perform MosaicFlags c h = (Built tx, h') ->
  deadline_of (body tx) mod 1000 = 0.
Proof.
  intros Hp.
  assert (Hc : is_create c = true).
  { apply (perform_built_is_create MosaicFlags c h tx). now rewrite Hp. }
  destruct (perform_built MosaicFlags c h h' tx Hc Hp) as [Hd _].
  unfold deadline_at in Hd.
  destruct (add_hours _ _); [discriminate|].
  injection Hd as <-. apply Z.mod_mul. discriminate.
Qed.


End Builders.

(* ----------------------------------------------------------------- *)
(** ** Nonces and flags of a mosaic definition *)

Section MosaicDefinition.

Variable MosaicFlags : MosaicFlagsEnum.

(** The nonce of a definition that returns: the second of the reading that
    follows the one of the deadline, taken to the local calendar and
    back. *)
Lemma mosaic_definition_nonce (signer : PublicKey) (divisibility duration : Z)
    (transferable supply_mutable restrictable revokable : bool)
    (h h' : Heap Creator) (tx : Transaction) :
  create_mosaic_definition_transaction MosaicFlags signer divisibility duration
    transferable supply_mutable restrictable revokable h = (inr tx, h') ->
  nonce_of (body tx)
  = Some (mkMosaicNonce
            (mktime (world h)
               (localtime (world h)
                  (clock (world h) (S (clock_reads (world h))) / 1000000)))).
Proof.
  rewrite create_mosaic_definition_transaction_run.
  destruct (deadline_at _ _ _); [discriminate|].
  intros [= <- _]. destruct h as [c w]. destruct w.
  cbn [body create nonce_of world tick clock_reads clock localtime mktime].
  unfold mktime_timetuple, reading, int_of_float.
  cbn [wall clock localtime mktime]. do 2 f_equal.
  apply Z.quot_mul. discriminate.
Qed.


(** X6.  With flags that are independent and not zero, the bitset built
    from the four booleans tells them apart: two combinations that give the
    same [flags] are the same combination. *)
Theorem mosaic_flags_decodable (t s r v t' s' r' v' : bool) :
  independent_flags MosaicFlags ->
  TRANSFERABLE MosaicFlags <> 0 ->
  SUPPLY_MUTABLE MosaicFlags <> 0 ->
  RESTRICTABLE MosaicFlags <> 0 ->
  REVOKABLE MosaicFlags <> 0 ->
  mosaic_flags MosaicFlags t s r v = mosaic_flags MosaicFlags t' s' r' v' ->
  t = t' /\ s = s' /\ r = r' /\ v = v'.
Proof.
  intros Hind Ht Hs Hr Hv.
  rewrite !(mosaic_flags_selected MosaicFlags _ _ _ _ (proj1 Hind)).
  intros Heq.
  destruct (selected_flags_independent MosaicFlags t s r v Hind)
    as (A1 & A2 & A3 & A4).
  destruct (selected_flags_independent MosaicFlags t' s' r' v' Hind)
    as (B1 & B2 & B3 & B4).
  cbv zeta in *. rewrite Heq in A1, A2, A3, A4.
  rewrite A1 in B1. rewrite A2 in B2. rewrite A3 in B3. rewrite A4 in B4.
  repeat split.
  - destruct t, t'; congruence.
  - destruct s, s'; congruence.
  - destruct r, r'; congruence.
  - destruct v, v'; congruence.
Qed.

End MosaicDefinition.

(* ----------------------------------------------------------------- *)
(** ** The size of a metadata value *)

Lemma utf8_encode_char_length (c : Z) (bs : list byte) :
  utf8_encode_char c = Some bs -> (1 <= length bs <= 4)%nat.
Proof.
  unfold utf8_encode_char.
  destruct (negb (is_scalar_value c)); [discriminate|].
  destruct (c <? 128); [|destruct (c <? 2048); [|destruct (c <? 65536)]];
    intros E; apply (f_equal (option_map (@length byte))) in E;
    cbn [option_map length] in E; injection E as <-; lia.
Qed.

Lemma utf8_encode_length (s : str) (bs : list byte) :
  utf8_encode s = Some bs ->
  (length s <= length bs <= 4 * length s)%nat.
Proof.
  revert bs. induction s as [|c s IH]; intros bs; cbn [utf8_encode].
  - intros [= <-]. cbn. lia.
  - destruct (utf8_encode_char c) as [b1|] eqn:Ec; [|discriminate].
    destruct (utf8_encode s) as [b2|]; [|discriminate].
    intros E. apply (f_equal (option_map (@length byte))) in E.
    cbn [option_map] in E. injection E as <-.
    rewrite length_app. cbn [length].
    pose proof (utf8_encode_char_length c b1 Ec).
    pose proof (IH b2 eq_refl). lia.
Qed.

(** X7.  In the metadata transaction a builder returns, [value_size_delta]
    is the number of bytes of [value]: at least one more than the number of
    characters of the text and at most one more than four times that
    number, so never zero and never negative. *)
Theorem metadata_value_size (signer : PublicKey) (target_address : Address)
    (target_mosaic_id : Z) (scoped_metadata_key value : str)
    (h h' : Heap Creator) (tx : Transaction) :
  create_mosaic_metadata_transaction signer target_address target_mosaic_id
    scoped_metadata_key value h = (inr tx, h') ->
  exists key encoded delta,
    transactions_of (body tx)
    = Some [EmbeddedMosaicMetadataTransaction signer target_address
              target_mosaic_id key encoded delta]
    /\ delta = Z.of_nat (length encoded)
    /\ 1 + Z.of_nat (length value) <= delta <= 1 + 4 * Z.of_nat (length value).
Proof.
  rewrite create_mosaic_metadata_transaction_run.
  destruct (deadline_at _ _ _); [discriminate|].
  destruct (generate_uint64_key scoped_metadata_key) as [|key];
    [discriminate|].
  destruct (utf8_encode value) as [bs|] eqn:E; [|discriminate].
  intros [= <- _].
  exists key, (x00 :: bs), (Z.of_nat (length (x00 :: bs))).
  split; [reflexivity|]. split; [reflexivity|].
  pose proof (utf8_encode_length value bs E). cbn [length]. lia.
Qed.

(* ----------------------------------------------------------------- *)
(** ** Aggregates of several lists of messages *)

Lemma encode_all_app (ms1 ms2 : list str) :
  encode_all (ms1 ++ ms2) =
  match encode_all ms1, encode_all ms2 with
  | Some b1, Some b2 => Some (b1 ++ b2)
  | _, _ => None
  end.
Proof.
  induction ms1 as [|m ms1 IH]; cbn [app encode_all].
  - now destruct (encode_all ms2).
  - rewrite IH. destruct (utf8_encode m); [|reflexivity].
    destruct (encode_all ms1); [|reflexivity].
    now destruct (encode_all ms2).
Qed.

(** X8.  An aggregate of the messages [ms1 ++ ms2] is built exactly when
    the aggregates of [ms1] and of [ms2] are, and its inner transactions
    are those of the first followed by those of the second.  An aggregate
    of no message at all is built as well, with no inner transaction. *)
Theorem aggregate_of_concatenation (signer : PublicKey) (recipient : Address)
    (mosaics : list Mosaic) (ms1 ms2 : list str) (h : Heap Creator) :
  let build := create_aggregate_transfer_transaction signer recipient mosaics in
  (forall tx1 h1 tx2 h2,
      build ms1 h = (inr tx1, h1) ->
      build ms2 h = (inr tx2, h2) ->
      exists tx h' inner1 inner2,
        build (ms1 ++ ms2) h = (inr tx, h')
        /\ transactions_of (body tx1) = Some inner1
        /\ transactions_of (body tx2) = Some inner2
        /\ transactions_of (body tx) = Some (inner1 ++ inner2))
  /\ (forall tx h',
        build (ms1 ++ ms2) h = (inr tx, h') ->
        (exists tx1 h1, build ms1 h = (inr tx1, h1))
        /\ (exists tx2 h2, build ms2 h = (inr tx2, h2)))
  /\ (forall deadline,
        deadline_at (self h) (world h) (clock_reads (world h)) = inr deadline ->
        exists tx h',
          build [] h = (inr tx, h')
          /\ transactions_of (body tx) = Some []).
Proof.
  cbv zeta. rewrite !create_aggregate_transfer_transaction_run.
  rewrite encode_all_app. cbn [encode_all].
  destruct (deadline_at _ _ _) as [|d].
  - repeat split; discriminate.
  - destruct (encode_all ms1) as [b1|]; destruct (encode_all ms2) as [b2|];
      (split; [|split]);
      try (intros; discriminate);
      try (intros ? [= <-]; eexists _, _; split; reflexivity).
    + intros tx1 h1 tx2 h2 [= <- _] [= <- _].
      eexists _, _, _, _. split; [reflexivity|].
      cbn [body create transactions_of]. rewrite map_app. repeat split.
    + intros tx h' _. split; eexists _, _; reflexivity.
Qed.

(* ----------------------------------------------------------------- *)
(** ** Reading back a number printed in decimal *)

From Stdlib Require DecimalPos.

(** The value of decimal digits read after [acc]. *)
Fixpoint uint_value (d : Decimal.uint) (acc : Z) : Z :=
  match d with
  | Decimal.Nil => acc
  | Decimal.D0 l => uint_value l (acc * 10 + 0)
  | Decimal.D1 l => uint_value l (acc * 10 + 1)
  | Decimal.D2 l => uint_value l (acc * 10 + 2)
  | Decimal.D3 l => uint_value l (acc * 10 + 3)
  | Decimal.D4 l => uint_value l (acc * 10 + 4)
  | Decimal.D5 l => uint_value l (acc * 10 + 5)
  | Decimal.D6 l => uint_value l (acc * 10 + 6)
  | Decimal.D7 l => uint_value l (acc * 10 + 7)
  | Decimal.D8 l => uint_value l (acc * 10 + 8)
  | Decimal.D9 l => uint_value l (acc * 10 + 9)
  end.

(** A character of a number printed in decimal: a digit or the sign. *)
Definition is_decimal_char (c : Z) : bool :=
  (c =? 45) || ((48 <=? c) && (c <=? 57)).

Lemma parse_digits_uint (d : Decimal.uint) (acc : Z) (after : bool) :
  d <> Decimal.Nil \/ after = true ->
  parse_digits 10 acc after (lit (NilEmpty.string_of_uint d))
  = Some (uint_value d acc, []).
Proof.
  revert acc after.
  induction d as [|l IH|l IH|l IH|l IH|l IH|l IH|l IH|l IH|l IH|l IH];
    intros acc after Hd;
    try (cbn [NilEmpty.string_of_uint uint_value];
         change (lit (String ?a ?s)) with (Z.of_N (N_of_ascii a) :: lit s);
         cbn [parse_digits N_of_ascii];
         apply IH; now right).
  destruct Hd as [Hd| ->]; [contradiction|]. reflexivity.
Qed.

Lemma uint_value_acc (d : Decimal.uint) (p : positive) :
  Z.pos (Pos.of_uint_acc d p) = uint_value d (Z.pos p).
Proof.
  revert p.
  induction d as [|l IH|l IH|l IH|l IH|l IH|l IH|l IH|l IH|l IH|l IH];
    intros p; cbn [Pos.of_uint_acc uint_value]; [reflexivity|..];
    rewrite IH; f_equal; lia.
Qed.

Lemma uint_value_of_uint (d : Decimal.uint) :
  Z.of_N (Pos.of_uint d) = uint_value d 0.
Proof.
  induction d as [|l IH|l IH|l IH|l IH|l IH|l IH|l IH|l IH|l IH|l IH];
    cbn [Pos.of_uint uint_value]; [reflexivity | exact IH |..];
    cbn [Z.of_N]; rewrite uint_value_acc; reflexivity.
Qed.

Lemma digits_of_positive (p : positive) :
  parse_digits 10 0 false (lit (NilEmpty.string_of_uint (Pos.to_uint p)))
  = Some (Z.pos p, []).
Proof.
  rewrite parse_digits_uint by (left; apply DecimalPos.Unsigned.to_uint_nonnil).
  rewrite <- uint_value_of_uint, DecimalPos.Unsigned.of_to. reflexivity.
Qed.

Lemma string_of_uint_chars (d : Decimal.uint) :
  Forall (fun c => 48 <= c <= 57) (lit (NilEmpty.string_of_uint d)).
Proof.
  induction d as [|l IH|l IH|l IH|l IH|l IH|l IH|l IH|l IH|l IH|l IH];
    cbn [NilEmpty.string_of_uint]; [constructor|..];
    change (lit (String ?a ?s)) with (Z.of_N (N_of_ascii a) :: lit s);
    (constructor; [cbn; lia | exact IH]).
Qed.

Lemma string_of_positive (p : positive) :
  NilZero.string_of_uint (Pos.to_uint p)
  = NilEmpty.string_of_uint (Pos.to_uint p)
  /\ exists c rest,
       lit (NilEmpty.string_of_uint (Pos.to_uint p)) = c :: rest
       /\ 48 <= c <= 57.
Proof.
  pose proof (DecimalPos.Unsigned.to_uint_nonnil p) as Hn.
  pose proof (string_of_uint_chars (Pos.to_uint p)) as Hc.
  destruct (Pos.to_uint p); [contradiction|..];
    (split; [reflexivity|]);
    cbn [NilEmpty.string_of_uint] in *;
    change (lit (String ?a ?s)) with (Z.of_N (N_of_ascii a) :: lit s) in *;
    eexists _, _; (split; [reflexivity|]); now inversion Hc.
Qed.

Lemma parse_int_unsigned (s : str) (c v : Z) (rest : str) :
  s = c :: rest -> 48 <= c <= 57 ->
  parse_digits 10 0 false s = Some (v, []) ->
  parse_int 10 s = Some v /\ parse_int 10 (45 :: s) = Some (- v).
Proof.
  intros -> Hc Hp. unfold parse_int.
  assert (Hs : is_space c = false).
  { unfold is_space.
    destruct (Z.eqb_spec c 32); [lia|].
    destruct (Z.leb_spec 9 c); destruct (Z.leb_spec c 13); try lia;
      reflexivity. }
  assert (Hpre : forall t, drop_prefix 10 t = t).
  { intros [|a [|b t]]; reflexivity. }
  split.
  - cbn [drop_spaces]. rewrite Hs. unfold drop_sign.
    destruct (Z.eqb_spec c 45); [lia|].
    destruct (Z.eqb_spec c 43); [lia|].
    rewrite Hpre, Hp. reflexivity.
  - change (drop_spaces (45 :: c :: rest)) with (45 :: c :: rest).
    change (drop_sign (45 :: c :: rest)) with (true, c :: rest).
    cbv beta iota. rewrite Hpre, Hp. reflexivity.
Qed.

(** [int(str(n)) == n]. *)
Lemma parse_int_str_of_int (n : Z) : parse_int 10 (str_of_int n) = Some n.
Proof.
  unfold str_of_int. destruct n as [|p|p]; [reflexivity|..];
    cbn [Z.to_int NilZero.string_of_int];
    destruct (string_of_positive p) as (-> & c & rest & Hs & Hc);
    pose proof (digits_of_positive p) as Hd;
    destruct (parse_int_unsigned _ c _ rest Hs Hc Hd) as [Hpos Hneg].
  - exact Hpos.
  - change (lit (String "-" ?s)) with (45 :: lit s). exact Hneg.
Qed.

Lemma str_of_int_chars (n : Z) :
  forallb is_decimal_char (str_of_int n) = true.
Proof.
  assert (digits : forall d,
             forallb is_decimal_char (lit (NilEmpty.string_of_uint d)) = true).
  { intros d. apply forallb_forall. intros c Hc.
    pose proof (string_of_uint_chars d) as F.
    rewrite Forall_forall in F. specialize (F c Hc).
    unfold is_decimal_char.
    destruct (Z.leb_spec 48 c); destruct (Z.leb_spec c 57); try lia;
      apply orb_true_r. }
  unfold str_of_int. destruct n as [|p|p]; [reflexivity|..];
    cbn [Z.to_int NilZero.string_of_int];
    destruct (string_of_positive p) as (-> & _).
  - apply digits.
  - change (lit (String "-" ?s)) with (45 :: lit s).
    cbn [forallb]. rewrite digits. reflexivity.
Qed.

(** Taking the letter s out of a decimal number followed by s leaves the
    number. *)
Lemma str_remove_unit (n : Z) :
  str_remove 115 (str_of_int n ++ lit "s") = str_of_int n.
Proof.
  unfold str_remove. rewrite filter_app.
  change (filter _ (lit "s")) with (@nil Z). rewrite app_nil_r.
  pose proof (str_of_int_chars n) as H.
  induction (str_of_int n) as [|c s IH]; [reflexivity|].
  cbn [forallb filter] in *. apply andb_true_iff in H. destruct H as [Hc Hs].
  assert (c <> 115).
  { unfold is_decimal_char in Hc. intros ->. discriminate Hc. }
  destruct (Z.eqb_spec c 115); [contradiction|].
  cbn [negb]. now rewrite IH.
Qed.

(* ----------------------------------------------------------------- *)
(** ** Answers of the node *)

Section Answers.

Variable json_loads : str -> option json.


(** X10.  What the getters do with an answer of status 200 that is not the
    document they expect: a text that is not JSON raises
    [JSONDecodeError]; a JSON value that is not an object raises
    [TypeError]; an object without the key [network] (or [chain]) raises
    [KeyError] of that key; a field that is not a string raises
    [AttributeError]; a string that is not a number raises [ValueError].
    In each case the request has been sent. *)
Theorem getter_malformed_answer (h : Heap CatapultRESTAPI.t) :
  let response :=
    node (world h) (sent (world h)) (properties_request (self h)) in
  let epoch := get_epoch_adjustment json_loads h in
  let currency := get_currency_mosaic_id json_loads h in
  status_code response = 200 ->
  (json_loads (text response) = None ->
   fst epoch = inl JSONDecodeError /\ fst currency = inl JSONDecodeError)
  /\ (forall contents,
        json_loads (text response) = Some contents ->
        (forall members, contents <> JObject members) ->
        fst epoch = inl TypeError /\ fst currency = inl TypeError)
  /\ (forall members,
        json_loads (text response) = Some (JObject members) ->
        (lookup (lit "network") members = None ->
         fst epoch = inl (KeyError (lit "network")))
        /\ (lookup (lit "chain") members = None ->
            fst currency = inl (KeyError (lit "chain"))))
  /\ (forall contents network field,
        json_loads (text response) = Some contents ->
        getitem contents (lit "network") = inr network ->
        getitem network (lit "epochAdjustment") = inr field ->
        (forall s, field <> JString s) ->
        fst epoch = inl AttributeError)
  /\ (forall contents network s,
        json_loads (text response) = Some contents ->
        getitem contents (lit "network") = inr network ->
        getitem network (lit "epochAdjustment") = inr (JString s) ->
        parse_int 10 (str_remove 115 s) = None ->
        fst epoch = inl ValueError)
  /\ sent (world (snd epoch)) = properties_request (self h) :: sent (world h)
  /\ sent (world (snd currency))
     = properties_request (self h) :: sent (world h).
Proof.
  cbv zeta. intros Hs.
  rewrite get_epoch_adjustment_run, get_currency_mosaic_id_run. cbv zeta.
  rewrite Hs. cbn [Z.eqb Pos.eqb fst snd]. unfold property_of.
  split; [|split; [|split; [|split; [|split; [|split]]]]].
  - intros ->. split; reflexivity.
  - intros contents -> Hno. unfold getitem.
    destruct contents; try (split; reflexivity).
    now destruct (Hno members).
  - intros members ->. unfold getitem. split; intros ->; reflexivity.
  - intros contents network field -> -> -> Hno.
    destruct field; try reflexivity. now destruct (Hno s).
  - intros contents network s -> -> -> Hp.
    cbn [replace_with_empty]. unfold int_. now rewrite Hp.
  - reflexivity.
  - reflexivity.
Qed.

(** X11.  The message of a [NetworkQueryError] names the status of the
    answer: it is "status code is " followed by the status in decimal,
    which reads back as the status. *)
Theorem query_error_names_status (h : Heap CatapultRESTAPI.t) (message : str) :
  fst (get_epoch_adjustment json_loads h) = inl (NetworkQueryError message)
  \/ fst (get_currency_mosaic_id json_loads h)
     = inl (NetworkQueryError message) ->
  exists digits,
    message = lit "status code is " ++ digits
    /\ parse_int 10 digits
       = Some (status_code (node (world h) (sent (world h))
                              (properties_request (self h)))).
Proof.
  rewrite get_epoch_adjustment_run, get_currency_mosaic_id_run. cbv zeta.
  cbn [fst].
  destruct (status_code _ =? 200).
  - intros [H|H]; now apply property_of_no_query_error in H.
  - intros [[= <-]|[= <-]]; eexists; (split; [reflexivity|]);
      apply parse_int_str_of_int.
Qed.

End Answers.

(* ----------------------------------------------------------------- *)
(** ** What an announcement prints *)

Lemma sign_and_announce_transaction_run (transaction : Transaction)
    (key_pair : KeyPair) (h : Heap Creator) :
  let facade := _facade (self h) in
  let signed :=
    attach_signature facade transaction
                     (sign_transaction facade key_pair transaction) in
  sign_and_announce_transaction transaction key_pair h =
  match utf8_encode (snd signed) with
  | None => (inl UnicodeEncodeError, h)
  | Some payload =>
      let request :=
        mkRequest PUT (_node_url (self h) ++ lit "/transactions")
                  [(lit "Content-type", lit "application/json")] payload in
      let response := node (world h) (sent (world h)) request in
      let tx_hash := Hash256_str (hash_transaction facade (fst signed)) in
      if status_code response =? 202
      then (inr tx_hash,
            mkHeap (self h)
              (record_line (_explorer_url (self h) ++ tx_hash)
                 (record_line
                    (lit "status code:" ++ str_of_int (status_code response))
                    (record_line (lit "tx hash:" ++ tx_hash)
                       (record_request request (world h))))))
      else (inl (AnnounceError (status_message (status_code response))),
            requested request h)
  end.
Proof.
  destruct h as [c w]. cbv zeta. cbn [self world].
  unfold sign_and_announce_transaction, bind, attr, gets. cbn [self world].
  destruct (attach_signature _ _ _) as [signed_tx json_payload].
  cbn [fst snd]. unfold encode.
  destruct (utf8_encode json_payload) as [payload|]; [|reflexivity].
  unfold ret at 1.
  unfold io, requests_put, request, print, modify, raise, ret, requested.
  cbn [self world fst snd sent node record_request].
  destruct (status_code _ =? 202); reflexivity.
Qed.

(** X12.  An accepted announcement prints three lines, in this order: the
    hash after "tx hash:", "status code:202", and the explorer URL of the
    builder followed by the hash it returns.  An announcement that raises
    prints nothing. *)
Theorem announce_prints (transaction : Transaction) (key_pair : KeyPair)
    (h : Heap Creator) :
  let run := sign_and_announce_transaction transaction key_pair h in
  (forall tx_hash,
      fst run = inr tx_hash ->
      stdout (world (snd run))
      = [_explorer_url (self h) ++ tx_hash;
         lit "status code:202";
         lit "tx hash:" ++ tx_hash] ++ stdout (world h))
  /\ (forall e, fst run = inl e -> stdout (world (snd run)) = stdout (world h)).
Proof.
  cbv zeta. rewrite sign_and_announce_transaction_run. cbv zeta.
  destruct (utf8_encode _) as [payload|].
  - destruct (status_code _ =? 202) eqn:E.
    + apply Z.eqb_eq in E. rewrite E. split; [|discriminate].
      intros tx_hash [= <-]. reflexivity.
    + split; [discriminate|]. intros e _. reflexivity.
  - split; [discriminate|]. intros e _. reflexivity.
Qed.

Section Explorer.

Variable SymbolFacade_new : str -> SymbolFacade.

(** X13.  A builder made for "mainnet" prints, when an announcement is
    accepted, the link [https://symbol.fyi/transactions/] followed by the
    hash it returns; a builder made for "testnet" prints the link
    [https://testnet.symbol.fyi/transactions/] followed by the hash. *)
Theorem announce_prints_explorer_link (network_name node_url : str)
    (epoch_adjustment max_fee expiration_hour : Z) (w w' w2 : World)
    (c : Creator) (transaction : Transaction) (key_pair : KeyPair)
    (tx_hash : str) :
  __init__ SymbolFacade_new network_name node_url epoch_adjustment max_fee
           expiration_hour w = (inr c, w') ->
  fst (sign_and_announce_transaction transaction key_pair (mkHeap c w2))
  = inr tx_hash ->
  hd_error
    (stdout (world (snd (sign_and_announce_transaction transaction key_pair
                           (mkHeap c w2)))))
  = Some ((if str_eqb network_name (lit "mainnet")
           then lit "https://symbol.fyi/transactions/"
           else lit "https://testnet.symbol.fyi/transactions/") ++ tx_hash).
Proof.
  intros Hinit Hrun.
  assert (Hurl : _explorer_url c
                 = if str_eqb network_name (lit "mainnet")
                   then lit "https://symbol.fyi/transactions/"
                   else lit "https://testnet.symbol.fyi/transactions/").
  { unfold __init__, ret, raise in Hinit.
    destruct (str_eqb network_name (lit "mainnet")).
    - now injection Hinit as <- _.
    - destruct (str_eqb network_name (lit "testnet")); [|discriminate].
      now injection Hinit as <- _. }
  revert Hrun. rewrite sign_and_announce_transaction_run. cbv zeta.
  destruct (utf8_encode _) as [payload|]; [|discriminate].
  destruct (status_code _ =? 202); [|discriminate].
  intros [= <-]. cbn [snd fst world self stdout record_line hd_error].
  now rewrite Hurl.
Qed.

End Explorer.

(** X14.  The message of an [AnnounceError] names the status of the
    answer in the same way: "status code is " followed by the status in
    decimal, which reads back as the status the node gave to the PUT. *)
Theorem announce_error_names_status (transaction : Transaction)
    (key_pair : KeyPair) (h : Heap Creator) (message : str) :
  fst (sign_and_announce_transaction transaction key_pair h)
  = inl (AnnounceError message) ->
  exists digits request,
    message = lit "status code is " ++ digits
    /\ sent (world (snd (sign_and_announce_transaction transaction key_pair h)))
       = request :: sent (world h)
    /\ method request = PUT
    /\ url request = _node_url (self h) ++ lit "/transactions"
    /\ parse_int 10 digits
       = Some (status_code (node (world h) (sent (world h)) request)).
Proof.
  rewrite sign_and_announce_transaction_run. cbv zeta.
  destruct (utf8_encode _) as [payload|]; [|discriminate].
  destruct (status_code _ =? 202); [discriminate|].
  intros [= <-]. eexists _, _. split; [reflexivity|].
  split; [reflexivity|]. split; [reflexivity|]. split; [reflexivity|].
  apply parse_int_str_of_int.
Qed.

(* ================================================================= *)
(** * class AccountConfig and the script *)

(** The value of a hexadecimal digit, in either case. *)
Definition hex_value (c : Z) : option Z :=
  if (48 <=? c) && (c <=? 57) then Some (c - 48)
  else if (97 <=? c) && (c <=? 102) then Some (c - 87)
  else if (65 <=? c) && (c <=? 70) then Some (c - 55)
  else None.

(** [binascii.unhexlify(s)]: two hexadecimal digits a byte; [None] stands
    for [binascii.Error], a [ValueError], raised on a string of odd length
    or on a character that is no hexadecimal digit. *)
Fixpoint unhexlify (s : str) : option (list byte) :=
  match s with
  | [] => Some []
  | [_] => None
  | a :: b :: rest =>
      match hex_value a, hex_value b, unhexlify rest with
      | Some x, Some y, Some bs => Some (byte_of_Z (16 * x + y) :: bs)
      | _, _, _ => None
      end
  end.

(** The bytes [bs] in hexadecimal, lower case for [upper = false]. *)
Definition hex_digit_of (upper : bool) (n : Z) : Z :=
  if n <? 10 then 48 + n else if upper then 55 + n else 87 + n.

Definition hexlify_with (upper : bool) (bs : list byte) : str :=
  flat_map (fun b => [hex_digit_of upper (Z_of_byte b / 16);
                      hex_digit_of upper (Z_of_byte b mod 16)]) bs.

Section Script.

(** [Path(p).parent] and [Path(p).stem], as strings. *)
Variable Path_parent : str -> str.
Variable Path_stem : str -> str.

(** [PrivateKeyStorage(directory, password).load(name)] and
    [.save(name, private_key)], which read and write a file. *)
Variable storage_load : str -> option str -> str -> M World PrivateKey.
Variable storage_save : str -> option str -> str -> PrivateKey -> M World unit.

(** [KeyPair(private_key)]. *)
Variable KeyPair_new : PrivateKey -> KeyPair.

(** [facade.network.public_key_to_address(public_key)] and [Address(s)]. *)
Variable public_key_to_address : SymbolFacade -> PublicKey -> Address.
Variable Address_new : str -> Address.

Variable SymbolFacade_new : str -> SymbolFacade.
Variable json_loads : str -> option json.

(** [AccountConfig.load_pem(pem_file_path, password)]. *)
Definition load_pem (pem_file_path : str) (password : option str)
  : M World KeyPair :=
  let file := pem_file_path in
  private_key <- storage_load (Path_parent file) password (Path_stem file) ;;
  ret (KeyPair_new private_key).

(** [AccountConfig.save_pem(pem_file_path, raw_private_key, password)]. *)
Definition save_pem (pem_file_path raw_private_key : str)
    (password : option str) : M World unit :=
  let file := pem_file_path in
  match unhexlify raw_private_key with
  | None => raise ValueError
  | Some raw =>
      let private_key := mkPrivateKey raw in
      storage_save (Path_parent file) password (Path_stem file) private_key
  end.

(** [AccountConfig.public_key_to_addres(facade, public_key)]. *)
Definition public_key_to_addres (facade : SymbolFacade)
    (public_key : PublicKey) : Address :=
  public_key_to_address facade public_key.

(** What the script has bound when it ends. *)
Record Bindings : Type := mkBindings {
  epoch_adjustment : Z;
  currency_mosaic_id : Z;
  sender_key_pair : KeyPair;
  sender_address : Address;
  recipient_address : Address;
  creator : Creator
}.

(** Runs a method of [api] on the world. *)
Definition on {O A} (o : O) (m : Method O A) : M World A :=
  fun w => let '(r, h) := m (mkHeap o w) in (r, world h).

(** The statements under [if __name__ == "__main__"]; the calls that build
    and announce are all commented out in the source. *)
Definition main : M World Bindings :=
  let network_name := lit "testnet" in
  let node_url := lit "https://node3.xym-harvesting.com:3001" in
  let catapult_api := CatapultRESTAPI__init__ node_url in
  epoch_adjustment <- on catapult_api (get_epoch_adjustment json_loads) ;;
  currency_mosaic_id <- on catapult_api (get_currency_mosaic_id json_loads) ;;
  let expiration_hour := 2 in
  let max_fee := 2000000 in
  let facade := SymbolFacade_new network_name in
  sender_key_pair <- load_pem (lit "./configs/private_key.pem")
                              (Some (lit "PASSWORD")) ;;
  let sender_public_key := public_key sender_key_pair in
  let sender_address := public_key_to_addres facade sender_public_key in
  let recipient_address :=
    Address_new (lit "TA3HQR6NPMXK7W6EP3AO6X5S4OSHVBU3ZEWBTNQ") in
  creator <- __init__ SymbolFacade_new network_name node_url epoch_adjustment
                      max_fee expiration_hour ;;
  ret (mkBindings epoch_adjustment currency_mosaic_id sender_key_pair
                  sender_address recipient_address creator).

End Script.

(* ----------------------------------------------------------------- *)
(** ** Keys in hexadecimal *)

Lemma hex_value_digit (upper : bool) (n : Z) :
  0 <= n < 16 -> hex_value (hex_digit_of upper n) = Some n.
Proof.
  intros Hn. unfold hex_digit_of, hex_value.
  destruct (Z.ltb_spec n 10); [|destruct upper];
    decide_tests; f_equal; lia.
Qed.

Lemma unhexlify_hexlify (upper : bool) (bs : list byte) :
  unhexlify (hexlify_with upper bs) = Some bs.
Proof.
  induction bs as [|b bs IH]; [reflexivity|].
  unfold hexlify_with in *. cbn [flat_map app unhexlify].
  pose proof (Z_of_byte_range b) as Hb.
  rewrite !hex_value_digit by (Z.div_mod_to_equations; lia).
  rewrite IH. do 2 f_equal.
  replace (16 * (Z_of_byte b / 16) + Z_of_byte b mod 16) with (Z_of_byte b)
    by (Z.div_mod_to_equations; lia).
  apply byte_of_Z_of_byte.
Qed.

Lemma pairs_ind (P : str -> Prop) :
  P [] -> (forall a, P [a]) -> (forall a b rest, P rest -> P (a :: b :: rest)) ->
  forall s, P s.
Proof.
  intros H0 H1 H2. fix IH 1. intros [|a [|b rest]].
  - exact H0.
  - apply H1.
  - apply H2. apply IH.
Qed.

Lemma unhexlify_length (s : str) (bs : list byte) :
  unhexlify s = Some bs -> length s = (2 * length bs)%nat.
Proof.
  revert bs. induction s as [|a|a b rest IH] using pairs_ind;
    intros bs; cbn [unhexlify].
  - intros [= <-]. reflexivity.
  - discriminate.
  - destruct (hex_value a); [|discriminate].
    destruct (hex_value b); [|discriminate].
    destruct (unhexlify rest) as [bs'|]; [|discriminate].
    intros [= <-]. cbn [length]. rewrite (IH bs' eq_refl). lia.
Qed.

Lemma unhexlify_digits (s : str) (bs : list byte) (c : Z) :
  unhexlify s = Some bs -> In c s -> hex_value c <> None.
Proof.
  revert bs. induction s as [|a|a b rest IH] using pairs_ind;
    intros bs; cbn [unhexlify].
  - intros _ [].
  - discriminate.
  - destruct (hex_value a) eqn:Ha; [|discriminate].
    destruct (hex_value b) eqn:Hb; [|discriminate].
    destruct (unhexlify rest) as [bs'|]; [|discriminate].
    intros _ [<-|[<-|Hin]]; try congruence.
    exact (IH bs' eq_refl Hin).
Qed.

Section Account.

Variable Path_parent : str -> str.
Variable Path_stem : str -> str.
Variable storage_save : str -> option str -> str -> PrivateKey -> M World unit.

(** X15.  [save_pem] with a key that is not written as pairs of
    hexadecimal digits (its length is odd, or it holds another character)
    raises a [ValueError] before the storage is touched: the world is left
    as it was. *)
Theorem save_pem_rejects_bad_hex (pem_file_path raw_private_key : str)
    (password : option str) (w : World) :
  Nat.odd (length raw_private_key) = true
  \/ (exists c, In c raw_private_key /\ hex_value c = None) ->
  save_pem Path_parent Path_stem storage_save pem_file_path raw_private_key
           password w
  = (inl ValueError, w).
Proof.
  intros Hbad. unfold save_pem.
  destruct (unhexlify raw_private_key) as [bs|] eqn:E; [|reflexivity].
  exfalso. destruct Hbad as [Hodd | (c & Hin & Hc)].
  - rewrite (unhexlify_length _ _ E) in Hodd.
    rewrite Nat.odd_mul in Hodd. discriminate Hodd.
  - exact (unhexlify_digits _ _ _ E Hin Hc).
Qed.


End Account.

(* ----------------------------------------------------------------- *)
(** ** The script *)

Section ScriptRuns.

Variable Path_parent : str -> str.
Variable Path_stem : str -> str.
Variable storage_load : str -> option str -> str -> M World PrivateKey.
Variable KeyPair_new : PrivateKey -> KeyPair.
Variable public_key_to_address : SymbolFacade -> PublicKey -> Address.
Variable Address_new : str -> Address.
Variable SymbolFacade_new : str -> SymbolFacade.
Variable json_loads : str -> option json.

(** X17.  The script asks the node twice, loads the key and builds a
    builder, in this order.  When the first answer is not 200 it ends with
    [NetworkQueryError] after that one request: nothing more is asked and
    no key is loaded.  When both getters and the key storage return, it
    ends with a builder for testnet that holds the epoch adjustment the
    node gave, the fee 2000000, two hours of expiration and the testnet
    explorer URL; the constructor does not raise. *)
Theorem main_outcome (w : World) :
  let node_url := lit "https://node3.xym-harvesting.com:3001" in
  let api := CatapultRESTAPI.mk node_url in
  let run :=
    main Path_parent Path_stem storage_load KeyPair_new public_key_to_address
         Address_new SymbolFacade_new json_loads in
  (status_code (node w (sent w) (properties_request api)) <> 200 ->
   run w
   = (inl (NetworkQueryError
             (status_message
                (status_code (node w (sent w) (properties_request api))))),
      record_request (properties_request api) w))
  /\ (forall epoch h1 currency h2 key w3,
        get_epoch_adjustment json_loads (mkHeap api w) = (inr epoch, h1) ->
        get_currency_mosaic_id json_loads (mkHeap api (world h1))
        = (inr currency, h2) ->
        storage_load (Path_parent (lit "./configs/private_key.pem"))
                     (Some (lit "PASSWORD"))
                     (Path_stem (lit "./configs/private_key.pem")) (world h2)
        = (inr key, w3) ->
        run w
        = (inr (mkBindings epoch currency (KeyPair_new key)
                  (public_key_to_address (SymbolFacade_new (lit "testnet"))
                     (public_key (KeyPair_new key)))
                  (Address_new (lit "TA3HQR6NPMXK7W6EP3AO6X5S4OSHVBU3ZEWBTNQ"))
                  (mk (SymbolFacade_new (lit "testnet")) node_url epoch
                      (mkAmount 2000000) 2
                      (lit "https://testnet.symbol.fyi/transactions/"))),
           w3)).
Proof.
  cbv zeta. split.
  - intros Hs. unfold main, bind, on, CatapultRESTAPI__init__.
    rewrite get_epoch_adjustment_run. cbv zeta. cbn [self world].
    apply Z.eqb_neq in Hs. rewrite Hs. reflexivity.
  - intros epoch h1 currency h2 key w3 He Hc Hk.
    unfold main, bind, on, CatapultRESTAPI__init__, load_pem,
      public_key_to_addres.
    rewrite He. rewrite Hc. unfold bind. rewrite Hk. reflexivity.
Qed.

End ScriptRuns.

(* ================================================================= *)
(** * The further properties on the sample values *)

(** A text that holds a lone surrogate. *)
Definition surrogate_text : str := [104; 55296].

Definition surrogate_transfer : Call :=
  Call_transfer Sample.signer Sample.recipient Sample.mosaics surrogate_text.

(** A transfer with nothing in it, to announce. *)
Definition plain_transfer : Transaction :=
  create (TransferTransaction Sample.signer 0 (mkAmount 0) Sample.recipient
            [] []).

Lemma sample_supply_change_runs :
  exists tx,
    perform Sample.flags Sample.supply_change (Sample.heap 202)
    = (Built tx, ticked (Sample.heap 202)).
Proof.
  cbn [perform Sample.supply_change].
  rewrite create_mosaic_supply_change_transaction_run.
  eexists. reflexivity.
Qed.

Lemma builders_do_no_io_sample :
  sent (world (snd (perform Sample.flags Sample.supply_change
                      (Sample.heap 202)))) = []
  /\ stdout (world (snd (perform Sample.flags Sample.supply_change
                          (Sample.heap 202)))) = [].
Proof.
  destruct (builders_do_no_io Sample.flags Sample.supply_change
              (Sample.heap 202) eq_refl) as (A & B & _).
  split; [exact A | exact B].
Defined.


Lemma deadline_whole_seconds_sample :
  exists tx,
    fst (perform Sample.flags Sample.supply_change (Sample.heap 202))
    = Built tx
    /\ deadline_of (body tx) mod 1000 = 0.
Proof.
  destruct sample_supply_change_runs as [tx Hrun].
  exists tx. split; [now rewrite Hrun|].
  exact (deadline_whole_seconds Sample.flags _ _ _ _ Hrun).
Defined.



Lemma mosaic_flags_decodable_sample :
  true = true /\ false = false /\ true = true /\ false = false.
Proof.
  apply (mosaic_flags_decodable Sample.flags true false true false
           true false true false).
  - repeat split.
  - discriminate.
  - discriminate.
  - discriminate.
  - discriminate.
  - reflexivity.
Defined.

Lemma metadata_value_size_sample :
  exists tx key encoded delta,
    fst (create_mosaic_metadata_transaction Sample.signer Sample.recipient
           0x251208ED3D0ABC84 (lit "header") (lit "transactionhash")
           (Sample.heap 202)) = inr tx
    /\ transactions_of (body tx)
       = Some [EmbeddedMosaicMetadataTransaction Sample.signer
                 Sample.recipient 0x251208ED3D0ABC84 key encoded delta]
    /\ delta = Z.of_nat (length encoded).
Proof.
  eassert (R : create_mosaic_metadata_transaction Sample.signer
                 Sample.recipient 0x251208ED3D0ABC84 (lit "header")
                 (lit "transactionhash") (Sample.heap 202) = (inr _, _)).
  { rewrite create_mosaic_metadata_transaction_run. reflexivity. }
  destruct (metadata_value_size _ _ _ _ _ _ _ _ R)
    as (key & encoded & delta & Ht & Hd & _).
  eexists _, key, encoded, delta. split; [now rewrite R|].
  split; [exact Ht | exact Hd].
Defined.


Lemma getter_malformed_answer_sample :
  fst (get_epoch_adjustment Sample.json_loads
         (mkHeap Sample.api (Sample.world 200 (lit "<html>"))))
  = inl JSONDecodeError
  /\ fst (get_currency_mosaic_id Sample.json_loads
           (mkHeap Sample.api (Sample.world 200 (lit "<html>"))))
     = inl JSONDecodeError.
Proof.
  exact (proj1 (getter_malformed_answer Sample.json_loads
                  (mkHeap Sample.api (Sample.world 200 (lit "<html>")))
                  eq_refl) eq_refl).
Defined.

Lemma query_error_names_status_sample :
  exists digits,
    lit "status code is 503" = lit "status code is " ++ digits
    /\ parse_int 10 digits = Some 503.
Proof.
  exact (query_error_names_status Sample.json_loads
           (mkHeap Sample.api (Sample.world 503 (lit "properties")))
           (lit "status code is 503") (or_introl eq_refl)).
Defined.

Lemma announce_prints_explorer_link_sample :
  hd_error
    (stdout (world (snd (sign_and_announce_transaction plain_transfer
                           Sample.key_pair (Sample.heap 202)))))
  = Some (lit "https://testnet.symbol.fyi/transactions/"
          ++ flat_map (fun _ => lit "02") (seq 0 32)).
Proof.
  exact (announce_prints_explorer_link (fun _ => Sample.facade)
           (lit "testnet") Sample.node_url 1637848847 2000000 2
           (world (Sample.heap 202)) (world (Sample.heap 202))
           (world (Sample.heap 202)) Sample.creator plain_transfer
           Sample.key_pair (flat_map (fun _ => lit "02") (seq 0 32))
           eq_refl eq_refl).
Defined.

Lemma announce_error_names_status_sample :
  exists digits,
    lit "status code is 500" = lit "status code is " ++ digits
    /\ parse_int 10 digits = Some 500.
Proof.
  destruct (announce_error_names_status plain_transfer Sample.key_pair
              (Sample.heap 500) (lit "status code is 500") eq_refl)
    as (digits & request & Hm & _ & _ & _ & Hp).
  exists digits. split; [exact Hm | exact Hp].
Defined.

Lemma save_pem_rejects_bad_hex_sample :
  save_pem (fun p => p) (fun p => p) (fun _ _ _ _ => ret tt)
           (lit "configs/private_key.pem") (lit "abc") None
           (world (Sample.heap 202))
  = (inl ValueError, world (Sample.heap 202)).
Proof.
  apply save_pem_rejects_bad_hex. left. reflexivity.
Defined.
